(** * KEITH-MD moderation database layer: text matching, rate windows,
      warn tracking.

    A shallow embedding of the JavaScript modules under [database/]
    (antibad.js, autoblock.js, antispam.js, antilink.js, warn.js,
    groupevents.js) together with the properties established about them.

    Conventions of the embedding.
    - A JavaScript string is a [string]; the development covers text whose
      code units are 7-bit ASCII (case mapping of larger code points is not
      modelled: [toLowerCase] leaves them alone).
    - A [Map] keyed by a template string is a [gmap string _].
    - [Date.now()] and [new Date()] are read from an explicit [now]
      argument, in milliseconds.
    - The Sequelize tables are lists of rows in insertion order; the calls
      on them ([findAll], [findOrCreate], [create], [destroy], [count]) are
      total functions on those lists. *)

From Stdlib Require Import ZArith Ascii String List Bool Lia Sorting.Sorted.
From stdpp Require Import base option strings list gmap fin_maps sorting.

Open Scope string_scope.

(** ** JavaScript string primitives *)

Module Js.

(** [String.prototype.toLowerCase], on ASCII code units. *)
Definition toLowerChar (c : ascii) : ascii :=
  let n := nat_of_ascii c in
  if (65 <=? n)%nat && (n <=? 90)%nat then ascii_of_nat (n + 32) else c.

Fixpoint toLowerCase (s : string) : string :=
  match s with
  | EmptyString => EmptyString
  | String c s' => String (toLowerChar c) (toLowerCase s')
  end.

(** [s.startsWith(p)]. *)
Fixpoint startsWith (p s : string) : bool :=
  match p, s with
  | EmptyString, _ => true
  | String _ _, EmptyString => false
  | String a p', String b s' => Ascii.eqb a b && startsWith p' s'
  end.

(** [s.includes(p)]. *)
Fixpoint includes (p s : string) : bool :=
  startsWith p s ||
  match s with
  | EmptyString => false
  | String _ s' => includes p s'
  end.

(** [s.endsWith(p)]. *)
Fixpoint endsWith (p s : string) : bool :=
  String.eqb s p ||
  match s with
  | EmptyString => false
  | String _ s' => endsWith p s'
  end.

(** [s.includes(c)] for a one-character needle. *)
Fixpoint includesChar (c : ascii) (s : string) : bool :=
  match s with
  | EmptyString => false
  | String d s' => Ascii.eqb c d || includesChar c s'
  end.

(** [s.replace(/c/g, r)]: every occurrence of the character [c] is
    replaced by the string [r] (none of the replacement strings used in
    the source contains a substitution pattern; a lone dollar sign stands
    for itself). *)
Fixpoint replaceAll (c : ascii) (r : string) (s : string) : string :=
  match s with
  | EmptyString => EmptyString
  | String d s' =>
      if Ascii.eqb c d then r ++ replaceAll c r s'
      else String d (replaceAll c r s')
  end.

(** [[...new Set(l)]]: first occurrences, in insertion order. *)
Fixpoint uniqFrom (seen l : list string) : list string :=
  match l with
  | [] => []
  | x :: l' =>
      if existsb (String.eqb x) seen then uniqFrom seen l'
      else x :: uniqFrom (x :: seen) l'
  end.

Definition setOf (l : list string) : list string := uniqFrom [] l.

(** The outcome of evaluating an expression: a value, or a thrown
    exception.  [Unmodelled] marks a run that leaves the fragment of the
    language given a meaning here (see [RegExp.compile]). *)
Inductive outcome (A : Type) : Type :=
| Returns (a : A)
| Throws
| Unmodelled.
Arguments Returns {A} a.
Arguments Throws {A}.
Arguments Unmodelled {A}.

(** [l.some(f)] for a callback that may throw: elements are visited in
    order, the first [true] stops the scan, an exception propagates. *)
Fixpoint some {A : Type} (f : A -> outcome bool) (l : list A) : outcome bool :=
  match l with
  | [] => Returns false
  | x :: l' =>
      match f x with
      | Returns true => Returns true
      | Returns false => some f l'
      | Throws => Throws
      | Unmodelled => Unmodelled
      end
  end.

(** White space as [trim] sees it, among the ASCII code units: tab, line
    feed, vertical tab, form feed, carriage return and space. *)
Definition isSpace (c : ascii) : bool :=
  let n := nat_of_ascii c in
  ((9 <=? n)%nat && (n <=? 13)%nat) || (n =? 32)%nat.

Fixpoint trimStart (s : string) : string :=
  match s with
  | EmptyString => EmptyString
  | String c s' => if isSpace c then trimStart s' else s
  end.

Fixpoint trimEnd (s : string) : string :=
  match s with
  | EmptyString => EmptyString
  | String c s' =>
      let t := trimEnd s' in
      if isSpace c && String.eqb t "" then EmptyString else String c t
  end.

(** [s.trim()]. *)
Definition trim (s : string) : string := trimEnd (trimStart s).

End Js.

(** ** The calls made on Sequelize tables

    A table is the list of its rows in insertion order.  [findAll] keeps the
    rows satisfying [where] and sorts them when an [order] on a column is
    given ([DESC]; rows with equal keys stay in table order, a choice SQL
    leaves open). *)

Module Sequelize.

Inductive status : Type := Off | On.

Definition status_eqb (a b : status) : bool :=
  match a, b with
  | Off, Off | On, On => true
  | _, _ => false
  end.

Fixpoint insertDesc {A : Type} (col : A -> Z) (x : A) (l : list A) : list A :=
  match l with
  | [] => [x]
  | y :: l' =>
      if (col y <=? col x)%Z then x :: y :: l' else y :: insertDesc col x l'
  end.

Definition orderDesc {A : Type} (col : A -> Z) (rows : list A) : list A :=
  fold_right (insertDesc col) [] rows.

Definition findAll {A : Type} (where_ : A -> bool) (order : option (A -> Z))
    (table : list A) : list A :=
  let hits := List.filter where_ table in
  match order with
  | Some col => orderDesc col hits
  | None => hits
  end.

(** Most recent first: along the list the column does not increase. *)
Definition newestFirst {A : Type} (col : A -> Z) (l : list A) : Prop :=
  StronglySorted (fun a b => (col b <= col a)%Z) l.

Definition destroy {A : Type} (where_ : A -> bool) (table : list A) : list A :=
  List.filter (fun row => negb (where_ row)) table.

Definition count {A : Type} (where_ : A -> bool) (table : list A) : nat :=
  length (List.filter where_ table).

(** [order: [[col, 'ASC']]] for a column compared by [leb]; rows with equal
    keys stay in table order. *)
Fixpoint insertAsc {A : Type} (leb : A -> A -> bool) (x : A) (l : list A)
    : list A :=
  match l with
  | [] => [x]
  | y :: l' => if leb x y then x :: y :: l' else y :: insertAsc leb x l'
  end.

Definition orderAsc {A : Type} (leb : A -> A -> bool) (rows : list A) : list A :=
  fold_right (insertAsc leb) [] rows.

End Sequelize.

(** ** Regular expressions

    The patterns the source builds are [\b<word>\b] with the word spliced in
    unescaped, under the flag [i].  The fragment modelled: literal
    characters, [.], the assertions [\b], [\B], [^] and [$], and a backslash
    in front of a syntax character.  A quantifier with nothing to repeat is
    the [SyntaxError] the constructor throws; other syntax (groups, classes,
    alternation, quantified atoms, the remaining escapes) is [NotModelled]. *)

Module RegExp.

Inductive item : Type :=
| Lit (c : ascii)
| AnyChar
| WordB
| NotWordB
| Bol
| Eol.

Inductive compiled : Type :=
| Pattern (p : list item)
| SyntaxError
| NotModelled.

Definition isSyntaxChar (c : ascii) : bool :=
  Js.includesChar c "^$\.*+?()[]{}|".

Definition isQuantifier (c : ascii) : bool := Js.includesChar c "*+?".

Definition cons_item (i : item) (r : compiled) : compiled :=
  match r with
  | Pattern p => Pattern (i :: p)
  | other => other
  end.

(** [atom] records whether the term just read can be repeated. *)
Fixpoint parse (atom : bool) (src : string) : compiled :=
  match src with
  | EmptyString => Pattern []
  | String c rest =>
      if Ascii.eqb c "\" then
        match rest with
        | EmptyString => SyntaxError
        | String e rest' =>
            if Ascii.eqb e "b" then cons_item WordB (parse false rest')
            else if Ascii.eqb e "B" then cons_item NotWordB (parse false rest')
            else if isSyntaxChar e || Ascii.eqb e "/"
                 then cons_item (Lit e) (parse true rest')
            else NotModelled
        end
      else if Ascii.eqb c "." then cons_item AnyChar (parse true rest)
      else if Ascii.eqb c "^" then cons_item Bol (parse false rest)
      else if Ascii.eqb c "$" then cons_item Eol (parse false rest)
      else if isQuantifier c then (if atom then NotModelled else SyntaxError)
      else if isSyntaxChar c then NotModelled
      else cons_item (Lit c) (parse true rest)
  end.

(** [new RegExp(src, 'i')]. *)
Definition compile (src : string) : compiled := parse false src.

(** Canonicalize under [ignoreCase]: upper-casing. *)
Definition canon (c : ascii) : ascii :=
  let n := nat_of_ascii c in
  if (97 <=? n)%nat && (n <=? 122)%nat then ascii_of_nat (n - 32) else c.

(** The characters of [\w]: letters, digits and the underscore. *)
Definition isWordChar (c : ascii) : bool :=
  let n := nat_of_ascii c in
  ((48 <=? n)%nat && (n <=? 57)%nat) ||
  ((65 <=? n)%nat && (n <=? 90)%nat) ||
  ((97 <=? n)%nat && (n <=? 122)%nat) ||
  (n =? 95)%nat.

Definition isWordAt (o : option ascii) : bool :=
  match o with
  | Some c => isWordChar c
  | None => false
  end.

Definition head (s : string) : option ascii :=
  match s with
  | EmptyString => None
  | String c _ => Some c
  end.

Definition isLineTerminator (c : ascii) : bool :=
  let n := nat_of_ascii c in (n =? 10)%nat || (n =? 13)%nat.

(** Match the items at one position of the input: [prev] is the
    character just before the position, [s] the input from it on. *)
Fixpoint matchAt (p : list item) (prev : option ascii) (s : string) : bool :=
  match p with
  | [] => true
  | Lit c :: p' =>
      match s with
      | String d s' => Ascii.eqb (canon c) (canon d) && matchAt p' (Some d) s'
      | EmptyString => false
      end
  | AnyChar :: p' =>
      match s with
      | String d s' => negb (isLineTerminator d) && matchAt p' (Some d) s'
      | EmptyString => false
      end
  | WordB :: p' =>
      negb (Bool.eqb (isWordAt prev) (isWordAt (head s))) && matchAt p' prev s
  | NotWordB :: p' =>
      Bool.eqb (isWordAt prev) (isWordAt (head s)) && matchAt p' prev s
  | Bol :: p' =>
      match prev with
      | None => matchAt p' prev s
      | Some _ => false
      end
  | Eol :: p' =>
      match s with
      | EmptyString => matchAt p' prev s
      | String _ _ => false
      end
  end.

Fixpoint searchFrom (p : list item) (prev : option ascii) (s : string) : bool :=
  matchAt p prev s ||
  match s with
  | EmptyString => false
  | String d s' => searchFrom p (Some d) s'
  end.

(** [regex.test(s)] for a regex without the [g] flag. *)
Definition test (p : list item) (s : string) : bool := searchFrom p None s.

End RegExp.

(** ** antibad.js: the bad-word matcher *)

Module AntiBad.

(** [generateLeetVariations(word)].  The [substitutions] table the source
    declares is never read; the variants come from the five [if]s. *)
Definition generateLeetVariations (word : string) : list string :=
  let variations := [word] in
  let variations :=
    if Js.includesChar "a" word
    then (variations ++ [Js.replaceAll "a" "@" word; Js.replaceAll "a" "4" word])%list
    else variations in
  let variations :=
    if Js.includesChar "e" word
    then (variations ++ [Js.replaceAll "e" "3" word])%list
    else variations in
  let variations :=
    if Js.includesChar "i" word
    then (variations ++ [Js.replaceAll "i" "1" word; Js.replaceAll "i" "!" word])%list
    else variations in
  let variations :=
    if Js.includesChar "s" word
    then (variations ++ [Js.replaceAll "s" "5" word; Js.replaceAll "s" "$" word])%list
    else variations in
  let variations :=
    if Js.includesChar "o" word
    then (variations ++ [Js.replaceAll "o" "0" word])%list
    else variations in
  Js.setOf variations.

(** The substitutions as the specification lists them: a letter and what
    replaces it.  Used to state what [generateLeetVariations] produces. *)
Definition specLeetSubstitutions : list (ascii * string) :=
  [("a"%char, "@"); ("a"%char, "4"); ("e"%char, "3"); ("i"%char, "1");
   ("i"%char, "!"); ("s"%char, "5"); ("s"%char, "$"); ("o"%char, "0")].

(** The callback of the [strict] branch:
    [new RegExp(`\\b${badWord}\\b`, 'i').test(lowerText)]. *)
Definition strictTest (lowerText badWord : string) : Js.outcome bool :=
  match RegExp.compile ("\b" ++ badWord ++ "\b") with
  | RegExp.Pattern p => Js.Returns (RegExp.test p lowerText)
  | RegExp.SyntaxError => Js.Throws
  | RegExp.NotModelled => Js.Unmodelled
  end.

Definition looseTest (lowerText badWord : string) : Js.outcome bool :=
  Js.Returns (Js.includes badWord lowerText).

Definition normalTest (lowerText badWord : string) : Js.outcome bool :=
  if Js.includes (" " ++ badWord ++ " ") lowerText
     || Js.startsWith (badWord ++ " ") lowerText
     || Js.endsWith (" " ++ badWord) lowerText
     || String.eqb lowerText badWord
  then Js.Returns true
  else
    let leetVariations := generateLeetVariations badWord in
    Js.Returns (existsb (fun variation => Js.includes variation lowerText)
                        leetVariations).

(** [containsBadWord(text, badWordsList, filterType)]; every filter type
    other than ['strict'] and ['loose'] takes the [default] branch. *)
Definition containsBadWord (text : string) (badWordsList : list string)
    (filterType : string) : Js.outcome bool :=
  if String.eqb text "" || (length badWordsList =? 0)%nat then Js.Returns false
  else
    let lowerText := Js.toLowerCase text in
    if String.eqb filterType "strict" then
      Js.some (strictTest lowerText) badWordsList
    else if String.eqb filterType "loose" then
      Js.some (looseTest lowerText) badWordsList
    else
      Js.some (normalTest lowerText) badWordsList.

(** The [badwords] table. *)
Record BadWordRow : Type := mkBadWordRow {
  bw_id : Z;
  bw_groupJid : string;
  bw_word : string;
  bw_added_by : string;
  bw_added_at : Z
}.

Record BadWords : Type := mkBadWords {
  BadWordsDB : list BadWordRow;
  nextWordId : Z
}.

(** What [getBadWords] hands out for a row. *)
Record BadWordInfo : Type := mkBadWordInfo {
  word : string;
  addedBy : string;
  addedAt : Z
}.

(** [word.toLowerCase().trim()]. *)
Definition normalize (w : string) : string := Js.trim (Js.toLowerCase w).

Definition sameWord (groupJid w : string) (r : BadWordRow) : bool :=
  String.eqb (bw_groupJid r) groupJid && String.eqb (bw_word r) w.

Definition inGroup (groupJid : string) (r : BadWordRow) : bool :=
  String.eqb (bw_groupJid r) groupJid.

(** [{ success: true, ... }] or [{ success: false, message: "Word already
    in list" }]. *)
Inductive addWordResult : Type := WordAdded | WordAlreadyInList.

Definition addBadWord (groupJid w userId : string) (now : Z) (db : BadWords)
    : BadWords * addWordResult :=
  let normalizedWord := normalize w in
  match List.find (sameWord groupJid normalizedWord) (BadWordsDB db) with
  | Some existing => (db, WordAlreadyInList)
  | None =>
      ({| BadWordsDB :=
            (BadWordsDB db ++
             [{| bw_id := nextWordId db; bw_groupJid := groupJid;
                 bw_word := normalizedWord; bw_added_by := userId;
                 bw_added_at := now |}])%list;
          nextWordId := (nextWordId db + 1)%Z |}, WordAdded)
  end.

Definition removeBadWord (groupJid w : string) (db : BadWords)
    : BadWords * bool :=
  let normalizedWord := normalize w in
  let deleted := Sequelize.count (sameWord groupJid normalizedWord) (BadWordsDB db) in
  ({| BadWordsDB :=
        Sequelize.destroy (sameWord groupJid normalizedWord) (BadWordsDB db);
      nextWordId := nextWordId db |}, (0 <? deleted)%nat).

Definition getBadWords (groupJid : string) (db : BadWords) : list BadWordInfo :=
  map (fun w => {| word := bw_word w; addedBy := bw_added_by w;
                   addedAt := bw_added_at w |})
      (Sequelize.orderAsc (fun a b => String.leb (bw_word a) (bw_word b))
         (List.filter (inGroup groupJid) (BadWordsDB db))).

Definition clearAllBadWords (groupJid : string) (db : BadWords)
    : BadWords * bool :=
  let deleted := Sequelize.count (inGroup groupJid) (BadWordsDB db) in
  ({| BadWordsDB := Sequelize.destroy (inGroup groupJid) (BadWordsDB db);
      nextWordId := nextWordId db |}, (0 <? deleted)%nat).

(** The words a caller passes on to [containsBadWord]. *)
Definition wordsOf (groupJid : string) (db : BadWords) : list string :=
  map word (getBadWords groupJid db).

(** A stored word is in normal form: lower-cased and trimmed. *)
Definition isNormalized (w : string) : Prop :=
  Js.toLowerCase w = w /\ Js.trim w = w.

(** The table invariant: no group holds a word twice, every word is in
    normal form. *)
Definition wordsWellFormed (db : BadWords) : Prop :=
  List.NoDup (map (fun r => (bw_groupJid r, bw_word r)) (BadWordsDB db)) /\
  Forall (fun r => isNormalized (bw_word r)) (BadWordsDB db).

Fixpoint allSpaces (s : string) : bool :=
  match s with
  | EmptyString => true
  | String c s' => Js.isSpace c && allSpaces s'
  end.

End AntiBad.

(** ** autoblock.js: the trigger-word matcher *)

Module AutoBlock.

Definition triggerTest (lowerText trigger : string) : Js.outcome bool :=
  match RegExp.compile ("\b" ++ trigger ++ "\b") with
  | RegExp.Pattern p =>
      if RegExp.test p lowerText then Js.Returns true
      else if Js.includes trigger lowerText then Js.Returns true
      else Js.Returns false
  | RegExp.SyntaxError => Js.Throws
  | RegExp.NotModelled => Js.Unmodelled
  end.

Definition containsTriggerWord (text : string) (triggerWordsList : list string)
    : Js.outcome bool :=
  if String.eqb text "" || (length triggerWordsList =? 0)%nat then Js.Returns false
  else
    let lowerText := Js.toLowerCase text in
    Js.some (triggerTest lowerText) triggerWordsList.

End AutoBlock.

(** ** In-memory warn counters

    Eight modules keep the same counter: a [Map] from the key
    [`${groupJid}:${userJid}`] to a number.  The functions below are those of
    antilink.js; antibad.js repeats them under other names. *)

Module AntiLink.

Definition key (groupJid userJid : string) : string :=
  groupJid ++ ":" ++ userJid.

(** [warnCounts.get(key) || 0]. *)
Definition getWarnCount (groupJid userJid : string)
    (warnCounts : gmap string nat) : nat :=
  default 0%nat (warnCounts !! key groupJid userJid).

Definition incrementWarnCount (groupJid userJid : string)
    (warnCounts : gmap string nat) : gmap string nat * nat :=
  let current := getWarnCount groupJid userJid warnCounts in
  (<[key groupJid userJid := (current + 1)%nat]> warnCounts, (current + 1)%nat).

Definition resetWarnCount (groupJid userJid : string)
    (warnCounts : gmap string nat) : gmap string nat :=
  delete (key groupJid userJid) warnCounts.

(** The loop [for (const key of m.keys()) if (key.startsWith(p))
    m.delete(key)], over the keys present when it starts. *)
Definition deleteIf {V : Type} (p : string) (acc : gmap string V) (k : string)
    : gmap string V :=
  if Js.startsWith p k then delete k acc else acc.

Definition deletePrefixed {V : Type} (p : string) (m : gmap string V)
    : gmap string V :=
  fold_left (deleteIf p) (map fst (map_to_list m)) m.

(** A group id without a colon (the ids of groups end in [@g.us] and carry
    none; the ids of users may name a device after a colon). *)
Definition noColon (g : string) : Prop := Js.includesChar ":" g = false.

Definition clearAllWarns (groupJid : string) (warnCounts : gmap string nat)
    : gmap string nat :=
  deletePrefixed (groupJid ++ ":") warnCounts.

Definition clearAllGroupsWarns (warnCounts : gmap string nat)
    : gmap string nat := ∅.

(** [n] successive calls of [incrementWarnCount] for one pair: the final
    map and the values returned, in order. *)
Fixpoint incrementTimes (n : nat) (groupJid userJid : string)
    (warnCounts : gmap string nat) : gmap string nat * list nat :=
  match n with
  | O => (warnCounts, [])
  | S n' =>
      let r := incrementWarnCount groupJid userJid warnCounts in
      let rs := incrementTimes n' groupJid userJid r.1 in
      (rs.1, r.2 :: rs.2)
  end.

End AntiLink.

Module AntiBadWarn.

Definition getBadWarnCount := AntiLink.getWarnCount.
Definition incrementBadWarnCount := AntiLink.incrementWarnCount.
Definition resetBadWarnCount := AntiLink.resetWarnCount.
Definition clearAllBadWarns := AntiLink.clearAllWarns.

End AntiBadWarn.

(** ** antilink.js: the settings table *)

Module AntiLinkDB.

Inductive action : Type := ActWarn | ActDelete | ActRemove.

Record AntiLinkRow : Type := mkAntiLinkRow {
  groupJid : string;
  groupName : option string;
  status : Sequelize.status;
  action_ : action;
  warn_limit : Z;
  createdAt : Z;
  updatedAt : Z
}.

Definition forGroup (g : string) (r : AntiLinkRow) : bool :=
  String.eqb (groupJid r) g.

(** [instance.update(...)] writes the instance back over its row. *)
Fixpoint replaceFirst {A : Type} (p : A -> bool) (new : A) (l : list A)
    : list A :=
  match l with
  | [] => []
  | x :: l' => if p x then new :: l' else x :: replaceFirst p new l'
  end.

(** [getAntiLinkSettings(groupJid)] at clock reading [now]. *)
Definition getAntiLinkSettings (g : string) (now : Z) (AntiLinkDB : list AntiLinkRow)
    : list AntiLinkRow * option AntiLinkRow :=
  if String.eqb g "" then (AntiLinkDB, None)
  else
    match List.find (forGroup g) AntiLinkDB with
    | Some settings => (AntiLinkDB, Some settings)
    | None =>
        let settings :=
          {| groupJid := g; groupName := None; status := Sequelize.Off;
             action_ := ActWarn; warn_limit := 3; createdAt := now;
             updatedAt := now |} in
        ((AntiLinkDB ++ [settings])%list, Some settings)
    end.

(** [toggleAntiLink(groupJid, groupName, status, action, warn_limit)] at
    clock reading [now]: the new table and the returned instance.  [stamp]
    is the [updatedAt] the store holds for an existing row after the update
    (the ORM decides whether it moves). *)
Definition toggleAntiLink (g : string) (name : option string)
    (st : Sequelize.status) (act : action) (limit : Z) (now stamp : Z)
    (AntiLinkDB : list AntiLinkRow) : list AntiLinkRow * AntiLinkRow :=
  match List.find (forGroup g) AntiLinkDB with
  | None =>
      let settings :=
        {| groupJid := g; groupName := name; status := st; action_ := act;
           warn_limit := limit; createdAt := now; updatedAt := now |} in
      ((AntiLinkDB ++ [settings])%list, settings)
  | Some found =>
      let settings :=
        {| groupJid := groupJid found; groupName := name; status := st;
           action_ := act; warn_limit := limit; createdAt := createdAt found;
           updatedAt := stamp |} in
      (replaceFirst (forGroup g) settings AntiLinkDB, settings)
  end.

Definition getAllAntiLinkGroups (AntiLinkDB : list AntiLinkRow)
    : list AntiLinkRow :=
  Sequelize.findAll (fun r => Sequelize.status_eqb (status r) Sequelize.On)
                    (Some updatedAt) AntiLinkDB.

End AntiLinkDB.

(** ** antispam.js: the message-rate window *)

Module AntiSpam.

Definition key := AntiLink.key.

(** [addUserMessage(groupJid, userJid)] at clock reading [now]. *)
Definition addUserMessage (groupJid userJid : string) (now : Z)
    (userMessages : gmap string (list Z)) : gmap string (list Z) :=
  let k := key groupJid userJid in
  let userMessages :=
    match userMessages !! k with
    | None => <[k := []]> userMessages
    | Some _ => userMessages
    end in
  let timestamps := default [] (userMessages !! k) in
  let timestamps := (timestamps ++ [now])%list in
  let timestamps :=
    if (20 <? length timestamps)%nat then tl timestamps else timestamps in
  <[k := timestamps]> userMessages.

(** [getUserMessageCount(groupJid, userJid, timeWindowSeconds)] at clock
    reading [now]: the new map and the returned count. *)
Definition getUserMessageCount (groupJid userJid : string)
    (timeWindowSeconds : Z) (now : Z)
    (userMessages : gmap string (list Z)) : gmap string (list Z) * nat :=
  let k := key groupJid userJid in
  let timeWindowMs := (timeWindowSeconds * 1000)%Z in
  match userMessages !! k with
  | None => (userMessages, 0%nat)
  | Some timestamps =>
      let recentMessages :=
        List.filter (fun time => (now - time <=? timeWindowMs)%Z) timestamps in
      (<[k := recentMessages]> userMessages, length recentMessages)
  end.

Definition clearUserMessages (groupJid userJid : string)
    (userMessages : gmap string (list Z)) : gmap string (list Z) :=
  delete (key groupJid userJid) userMessages.

Definition clearAllGroupMessages (groupJid : string)
    (userMessages : gmap string (list Z)) : gmap string (list Z) :=
  AntiLink.deletePrefixed (groupJid ++ ":") userMessages.

(** [clearAllGroupsSpamWarns()] empties both maps of the module. *)
Definition clearAllGroupsSpamWarns
    (st : gmap string (list Z) * gmap string nat)
    : gmap string (list Z) * gmap string nat := (∅, ∅).

(** The operations that touch [userMessages]. *)
Inductive op : Type :=
| AddUserMessage (groupJid userJid : string) (now : Z)
| GetUserMessageCount (groupJid userJid : string) (timeWindowSeconds now : Z)
| ClearUserMessages (groupJid userJid : string)
| ClearAllGroupMessages (groupJid : string)
| ClearAllGroupsSpamWarns.

Definition step (o : op) (userMessages : gmap string (list Z))
    : gmap string (list Z) :=
  match o with
  | AddUserMessage g u now => addUserMessage g u now userMessages
  | GetUserMessageCount g u w now => (getUserMessageCount g u w now userMessages).1
  | ClearUserMessages g u => clearUserMessages g u userMessages
  | ClearAllGroupMessages g => clearAllGroupMessages g userMessages
  | ClearAllGroupsSpamWarns => (clearAllGroupsSpamWarns (userMessages, ∅)).1
  end.

(** The module starts with an empty map. *)
Definition run (ops : list op) : gmap string (list Z) :=
  fold_left (fun m o => step o m) ops ∅.

(** The timestamps held for a key, none when the key is absent. *)
Definition timestampsOf (groupJid userJid : string)
    (userMessages : gmap string (list Z)) : list Z :=
  default [] (userMessages !! key groupJid userJid).

(** Successive calls of [addUserMessage] for one pair at the clock
    readings [times]. *)
Definition addUserMessages (groupJid userJid : string) (times : list Z)
    (userMessages : gmap string (list Z)) : gmap string (list Z) :=
  fold_left (fun m now => addUserMessage groupJid userJid now m) times
            userMessages.

(** No key holds more than 20 timestamps. *)
Definition bounded (userMessages : gmap string (list Z)) : Prop :=
  forall k ts, userMessages !! k = Some ts -> (length ts <= 20)%nat.

(** The [antispam] settings table and its bulk query. *)
Inductive action : Type := ActDelete | ActRemove | ActWarn.

Record AntiSpamRow : Type := mkAntiSpamRow {
  groupJid : string;
  groupName : option string;
  status : Sequelize.status;
  action_ : action;
  message_limit : Z;
  time_window : Z;
  warn_limit : Z;
  exempt_admins : bool;
  updatedAt : Z
}.

Definition getAllAntiSpamGroups (AntiSpamDB : list AntiSpamRow)
    : list AntiSpamRow :=
  Sequelize.findAll (fun r => Sequelize.status_eqb (status r) Sequelize.On)
                    (Some updatedAt) AntiSpamDB.

End AntiSpam.

(** ** groupevents.js: the bulk query *)

Module GroupEvents.

Inductive promoteAction : Type := Demote | RemovePromoter | WarnPromoter.
Inductive demoteAction : Type := Promote | RemoveDemoter | WarnDemoter.

Record GroupEventsRow : Type := mkGroupEventsRow {
  groupJid : string;
  groupName : option string;
  enabled : bool;
  welcomeMessage : string;
  goodbyeMessage : string;
  showPromotions : bool;
  antiPromote : Sequelize.status;
  antiPromoteAction : promoteAction;
  antiDemote : Sequelize.status;
  antiDemoteAction : demoteAction;
  warn_limit : Z;
  updatedAt : Z
}.

Definition getAllGroupEventsGroups (GroupEventsDB : list GroupEventsRow)
    : list GroupEventsRow :=
  Sequelize.findAll (fun r => Bool.eqb (enabled r) true)
                    (Some updatedAt) GroupEventsDB.

(** The two counters of the module, [antiPromoteWarnCounts] and
    [antiDemoteWarnCounts], are the counter of antilink.js twice over. *)
Definition getAntiPromoteWarnCount := AntiLink.getWarnCount.
Definition incrementAntiPromoteWarnCount := AntiLink.incrementWarnCount.
Definition resetAntiPromoteWarnCount := AntiLink.resetWarnCount.
Definition getAntiDemoteWarnCount := AntiLink.getWarnCount.
Definition incrementAntiDemoteWarnCount := AntiLink.incrementWarnCount.
Definition resetAntiDemoteWarnCount := AntiLink.resetWarnCount.

(** [clearAllWarns(groupJid)] runs the prefix loop over both maps. *)
Definition clearAllWarns (groupJid : string)
    (counts : gmap string nat * gmap string nat)
    : gmap string nat * gmap string nat :=
  (AntiLink.deletePrefixed (groupJid ++ ":") counts.1,
   AntiLink.deletePrefixed (groupJid ++ ":") counts.2).

End GroupEvents.

(** ** warn.js: persistent warns with an in-memory cache *)

Module Warn.

Inductive action : Type := Kick | Delete.

Record WarnSettings : Type := mkWarnSettings {
  s_groupJid : string;
  s_groupName : option string;
  s_status : Sequelize.status;
  s_warn_limit : Z;
  s_action : action;
  s_exempt_admins : bool;
  s_auto_reset_days : Z;
  s_updatedAt : Z
}.

Record WarnRow : Type := mkWarnRow {
  w_id : Z;
  w_groupJid : string;
  w_userJid : string;
  w_warnedBy : string;
  w_reason : string;
  w_createdAt : Z
}.

(** The object kept in the cache and handed to callers. *)
Record CachedWarn : Type := mkCachedWarn {
  id : Z;
  warnedBy : string;
  reason : string;
  createdAt : Z
}.

Record State : Type := mkState {
  WarnSettingsDB : list WarnSettings;
  WarnsDB : list WarnRow;
  nextId : Z;
  warnCache : gmap string (list CachedWarn)
}.

Definition key := AntiLink.key.

Definition initial : State :=
  {| WarnSettingsDB := []; WarnsDB := []; nextId := 1; warnCache := ∅ |}.

Definition toCached (w : WarnRow) : CachedWarn :=
  {| id := w_id w; warnedBy := w_warnedBy w; reason := w_reason w;
     createdAt := w_createdAt w |}.

Definition ofPair (groupJid userJid : string) (w : WarnRow) : bool :=
  String.eqb (w_groupJid w) groupJid && String.eqb (w_userJid w) userJid.

(** [if (!cache.has(key)) cache.set(key, []); cache.get(key).push(e)]. *)
Definition cachePush (k : string) (e : CachedWarn)
    (cache : gmap string (list CachedWarn)) : gmap string (list CachedWarn) :=
  <[k := (default [] (cache !! k) ++ [e])%list]> cache.

Definition refreshWarnCache (st : State) : State :=
  let allWarns := Sequelize.findAll (fun _ => true) None (WarnsDB st) in
  let cache :=
    fold_left (fun cache warn =>
                 cachePush (key (w_groupJid warn) (w_userJid warn))
                           (toCached warn) cache)
              allWarns ∅ in
  {| WarnSettingsDB := WarnSettingsDB st; WarnsDB := WarnsDB st;
     nextId := nextId st; warnCache := cache |}.

(** [getWarnSettings(groupJid)]: [null] for a falsy group id, otherwise
    [findOrCreate] with the defaults of the source (the column default of
    [status] is ['on']). *)
Definition getWarnSettings (groupJid : string) (now : Z) (st : State)
    : State * option WarnSettings :=
  if String.eqb groupJid "" then (st, None)
  else
    match List.find (fun s => String.eqb (s_groupJid s) groupJid)
                    (WarnSettingsDB st) with
    | Some settings => (st, Some settings)
    | None =>
        let settings :=
          {| s_groupJid := groupJid; s_groupName := None;
             s_status := Sequelize.On; s_warn_limit := 3; s_action := Kick;
             s_exempt_admins := true; s_auto_reset_days := 7;
             s_updatedAt := now |} in
        ({| WarnSettingsDB := (WarnSettingsDB st ++ [settings])%list;
            WarnsDB := WarnsDB st; nextId := nextId st;
            warnCache := warnCache st |}, Some settings)
    end.

Definition getAllWarnGroups (st : State) : list WarnSettings :=
  Sequelize.findAll (fun _ => true) (Some s_updatedAt) (WarnSettingsDB st).

Definition getUserWarnCount (groupJid userJid : string) (st : State) : nat :=
  match warnCache st !! key groupJid userJid with
  | Some warns => length warns
  | None => Sequelize.count (ofPair groupJid userJid) (WarnsDB st)
  end.

Definition getUserWarns (groupJid userJid : string) (st : State)
    : list CachedWarn :=
  match warnCache st !! key groupJid userJid with
  | Some warns => warns
  | None =>
      map toCached
          (Sequelize.findAll (ofPair groupJid userJid) (Some w_createdAt)
                             (WarnsDB st))
  end.

Inductive addWarnResult : Type :=
| Added (warnCount : nat) (warnId : Z) (limit : Z)
| Failed.

(** [addWarn(groupJid, userJid, warnedBy, reason)] at clock reading [now].
    The row is created and cached before [settings.warn_limit] is read;
    with [settings] null that read throws and the [catch] answers
    [{ success: false }]. *)
Definition addWarn (groupJid userJid warnedBy reason : string) (now : Z)
    (st : State) : State * addWarnResult :=
  let '(st, settings) := getWarnSettings groupJid now st in
  let warn :=
    {| w_id := nextId st; w_groupJid := groupJid; w_userJid := userJid;
       w_warnedBy := warnedBy; w_reason := reason; w_createdAt := now |} in
  let st :=
    {| WarnSettingsDB := WarnSettingsDB st;
       WarnsDB := (WarnsDB st ++ [warn])%list;
       nextId := (nextId st + 1)%Z;
       warnCache := cachePush (key groupJid userJid) (toCached warn)
                              (warnCache st) |} in
  let warnCount := getUserWarnCount groupJid userJid st in
  match settings with
  | Some settings => (st, Added warnCount (w_id warn) (s_warn_limit settings))
  | None => (st, Failed)
  end.

(** The limit configured for a group: that of its settings row, or the
    default 3 with which the row is created on first access. *)
Definition warnLimitOf (groupJid : string) (st : State) : Z :=
  match List.find (fun s => String.eqb (s_groupJid s) groupJid)
                  (WarnSettingsDB st) with
  | Some settings => s_warn_limit settings
  | None => 3
  end.

(** Successive calls of [addWarn] for one pair, each with its own issuer,
    reason and clock reading. *)
Fixpoint addWarns (groupJid userJid : string)
    (calls : list (string * string * Z)) (st : State)
    : State * list addWarnResult :=
  match calls with
  | [] => (st, [])
  | (warnedBy, reason, now) :: rest =>
      let r := addWarn groupJid userJid warnedBy reason now st in
      let rs := addWarns groupJid userJid rest r.1 in
      (rs.1, r.2 :: rs.2)
  end.

(** The number of warns the cache holds for a pair. *)
Definition cacheLen (groupJid userJid : string) (st : State) : nat :=
  length (default [] (warnCache st !! key groupJid userJid)).

Definition removeWarn (warnId : Z) (st : State) : State * bool :=
  match List.find (fun w => (w_id w =? warnId)%Z) (WarnsDB st) with
  | None => (st, false)
  | Some warn =>
      let k := key (w_groupJid warn) (w_userJid warn) in
      let rows := Sequelize.destroy (fun w => (w_id w =? warnId)%Z) (WarnsDB st) in
      let cache :=
        match warnCache st !! k with
        | Some cached =>
            let warns := List.filter (fun w => negb (id w =? warnId)%Z) cached in
            if (length warns =? 0)%nat then delete k (warnCache st)
            else <[k := warns]> (warnCache st)
        | None => warnCache st
        end in
      ({| WarnSettingsDB := WarnSettingsDB st; WarnsDB := rows;
          nextId := nextId st; warnCache := cache |}, true)
  end.

Definition clearUserWarns (groupJid userJid : string) (st : State)
    : State * bool :=
  ({| WarnSettingsDB := WarnSettingsDB st;
      WarnsDB := Sequelize.destroy (ofPair groupJid userJid) (WarnsDB st);
      nextId := nextId st;
      warnCache := delete (key groupJid userJid) (warnCache st) |}, true).

Definition clearAllWarns (groupJid : string) (st : State) : State * bool :=
  ({| WarnSettingsDB := WarnSettingsDB st;
      WarnsDB := Sequelize.destroy
                   (fun w => String.eqb (w_groupJid w) groupJid) (WarnsDB st);
      nextId := nextId st;
      warnCache := AntiLink.deletePrefixed (groupJid ++ ":") (warnCache st) |},
   true).

Definition dayMs : Z := 86400000.

(** [d.setDate(d.getDate() - days)] on a date holding [t]: the date now
    holds the returned time.  Calendar days are taken as 24 hours, as they
    are in a time zone without clock changes; where the local clock changes
    between the two dates the real cutoff is off by that change. *)
Definition setDateBack (t days : Z) : Z := (t - days * dayMs)%Z.

(** The [for] loop of [autoResetOldWarns].  [now] is the one [Date] object
    created before the loop; [setDate] updates it in place, so each
    iteration starts from the date the previous one left. *)
Fixpoint sweep (settings : list WarnSettings) (now : Z) (warns : list WarnRow)
    : list WarnRow :=
  match settings with
  | [] => warns
  | setting :: rest =>
      let days := s_auto_reset_days setting in
      let now := setDateBack now days in
      let cutoffDate := now in
      let warns :=
        Sequelize.destroy
          (fun w => String.eqb (w_groupJid w) (s_groupJid setting)
                    && (w_createdAt w <? cutoffDate)%Z) warns in
      sweep rest now warns
  end.

(** [autoResetOldWarns()] at clock reading [now].  The source spells the
    comparison operator [DataTypes.Op.lt]; [DataTypes] belongs to the
    sequelize package, so whether it has an [Op] member is the parameter
    [hasOp].  Without it the first iteration throws a [TypeError], which
    the [catch] logs: nothing is deleted and the cache is not rebuilt. *)
Definition autoResetOldWarns (hasOp : bool) (now : Z) (st : State) : State :=
  let settings := Sequelize.findAll (fun _ => true) None (WarnSettingsDB st) in
  match settings with
  | [] => refreshWarnCache st
  | _ :: _ =>
      if hasOp then
        refreshWarnCache
          {| WarnSettingsDB := WarnSettingsDB st;
             WarnsDB := sweep settings now (WarnsDB st);
             nextId := nextId st; warnCache := warnCache st |}
      else st
  end.

(** The key under which a row is cached. *)
Definition rowKey (w : WarnRow) : string := key (w_groupJid w) (w_userJid w).

(** The cache agrees with the store: for a pair with a colon-free group id,
    what the cache holds (nothing, when the key is absent) is the pair's
    rows in table order. *)
Definition coherent (st : State) : Prop :=
  forall g u, AntiLink.noColon g ->
    default [] (warnCache st !! key g u)
    = map toCached (List.filter (ofPair g u) (WarnsDB st)).

(** The store as the module builds it: colon-free group ids, distinct ids
    below the next one to be given out, and a cache that agrees with it. *)
Definition wellFormed (st : State) : Prop :=
  Forall (fun w => AntiLink.noColon (w_groupJid w)) (WarnsDB st) /\
  List.NoDup (map w_id (WarnsDB st)) /\
  Forall (fun w => (w_id w < nextId st)%Z) (WarnsDB st) /\
  coherent st.

(** The calls that change the state of the module. *)
Inductive op : Type :=
| OpAddWarn (groupJid userJid warnedBy reason : string) (now : Z)
| OpRemoveWarn (warnId : Z)
| OpClearUserWarns (groupJid userJid : string)
| OpClearAllWarns (groupJid : string)
| OpAutoReset (hasOp : bool) (now : Z)
| OpRefresh
| OpGetWarnSettings (groupJid : string) (now : Z).

Definition step (o : op) (st : State) : State :=
  match o with
  | OpAddWarn g u warnedBy reason now => (addWarn g u warnedBy reason now st).1
  | OpRemoveWarn warnId => (removeWarn warnId st).1
  | OpClearUserWarns g u => (clearUserWarns g u st).1
  | OpClearAllWarns g => (clearAllWarns g st).1
  | OpAutoReset hasOp now => autoResetOldWarns hasOp now st
  | OpRefresh => refreshWarnCache st
  | OpGetWarnSettings g now => (getWarnSettings g now st).1
  end.

Definition run (ops : list op) : State :=
  fold_left (fun st o => step o st) ops initial.

(** [initWarnDB()] on a store that may already hold rows: the tables are
    synchronised, then the cache is loaded. *)
Definition initWarnDB (st : State) : State := refreshWarnCache st.

Definition runFrom (st : State) (ops : list op) : State :=
  fold_left (fun st o => step o st) ops st.

(** What the database guarantees of the [warns] table (distinct ids, all
    below the next one to be given out), with colon-free group ids. *)
Definition storeWellFormed (st : State) : Prop :=
  Forall (fun w => AntiLink.noColon (w_groupJid w)) (WarnsDB st) /\
  List.NoDup (map w_id (WarnsDB st)) /\
  Forall (fun w => (w_id w < nextId st)%Z) (WarnsDB st).

(** The group id an operation is given, if any, has no colon. *)
Definition opColonFree (o : op) : Prop :=
  match o with
  | OpAddWarn g _ _ _ _ | OpClearUserWarns g _ | OpClearAllWarns g =>
      AntiLink.noColon g
  | _ => True
  end.

End Warn.

(** ** Vocabulary for stating the strict match

    Words without pattern syntax, and what it means for a word to occur in a
    text at a token boundary: an occurrence neither preceded nor followed by
    a word character. *)

Module Tokens.

(** Lowercase letters, digits and the underscore. *)
Definition isPlainChar (c : ascii) : bool :=
  let n := nat_of_ascii c in
  ((48 <=? n)%nat && (n <=? 57)%nat) ||
  ((97 <=? n)%nat && (n <=? 122)%nat) ||
  (n =? 95)%nat.

Fixpoint isPlainWord (w : string) : bool :=
  match w with
  | EmptyString => true
  | String c w' => isPlainChar c && isPlainWord w'
  end.

Definition plainWord (w : string) : Prop := w <> "" /\ isPlainWord w = true.

(** The last character of [prev] followed by [s]. *)
Fixpoint lastChar (prev : option ascii) (s : string) : option ascii :=
  match s with
  | EmptyString => prev
  | String c s' => lastChar (Some c) s'
  end.

Definition atTokenBoundary (w t : string) : Prop :=
  exists pre post,
    t = pre ++ w ++ post /\
    RegExp.isWordAt (lastChar None pre) = false /\
    RegExp.isWordAt (RegExp.head post) = false.

(** The pattern items of a word read literally. *)
Fixpoint lits (w : string) : list RegExp.item :=
  match w with
  | EmptyString => []
  | String c w' => RegExp.Lit c :: lits w'
  end.

(** No character is changed by [toLowerCase]. *)
Fixpoint allLower (s : string) : bool :=
  match s with
  | EmptyString => true
  | String c s' => Ascii.eqb (Js.toLowerChar c) c && allLower s'
  end.

End Tokens.

(** * Properties *)

#[local] Arguments String.append !_ _ / : simpl nomatch.

(** ** Strings *)

Section StringFacts.

Lemma append_assoc (a b c : string) : (a ++ b) ++ c = a ++ (b ++ c).
Proof. induction a as [|x a IH]; simpl; [reflexivity | now rewrite IH]. Qed.

Lemma append_empty_r (a : string) : a ++ "" = a.
Proof. induction a as [|x a IH]; simpl; [reflexivity | now rewrite IH]. Qed.

Lemma startsWith_spec (p s : string) :
  Js.startsWith p s = true <-> exists post, s = p ++ post.
Proof.
  revert s. induction p as [|a p IH]; intros s; simpl.
  - split; [intros _; now exists s | reflexivity].
  - destruct s as [|b s]; simpl.
    + split; [discriminate | intros [post H]; discriminate].
    + rewrite andb_true_iff, Ascii.eqb_eq, IH. split.
      * intros [-> [post ->]]. now exists post.
      * intros [post H]. injection H as -> ->. split; [reflexivity | now exists post].
Qed.

Lemma includes_spec (p s : string) :
  Js.includes p s = true <-> exists pre post, s = pre ++ p ++ post.
Proof.
  induction s as [|c s IH]; simpl; rewrite orb_true_iff, startsWith_spec.
  - split.
    + intros [[post H] | H]; [| discriminate]. now exists "", post.
    + intros [pre [post H]]. left. destruct pre; [now exists post |].
      discriminate.
  - rewrite IH. split.
    + intros [[post H] | [pre [post H]]].
      * now exists "", post.
      * exists (String c pre), post. simpl. now rewrite H.
    + intros [pre [post H]]. destruct pre as [|d pre]; simpl in H.
      * left. now exists post.
      * right. injection H as _ ->. now exists pre, post.
Qed.

Lemma endsWith_spec (p s : string) :
  Js.endsWith p s = true <-> exists pre, s = pre ++ p.
Proof.
  induction s as [|c s IH]; cbn [Js.endsWith]; rewrite orb_true_iff, String.eqb_eq.
  - split.
    + intros [<- | H]; [now exists "" | discriminate].
    + intros [pre H]. left. destruct pre; [assumption | discriminate].
  - rewrite IH. split.
    + intros [<- | [pre ->]]; [now exists "" | now exists (String c pre)].
    + intros [pre H]. destruct pre as [|d pre]; simpl in H.
      * now left.
      * right. injection H as _ ->. now exists pre.
Qed.

Lemma includes_refl (p : string) : Js.includes p p = true.
Proof. apply includes_spec. exists "", "". simpl. now rewrite append_empty_r. Qed.

Lemma includes_trans (a b c : string) :
  Js.includes a b = true -> Js.includes b c = true -> Js.includes a c = true.
Proof.
  rewrite !includes_spec. intros [p1 [q1 ->]] [p2 [q2 ->]].
  exists (p2 ++ p1), (q1 ++ q2). now rewrite !append_assoc.
Qed.

Lemma includes_app_l (a b : string) : Js.includes a (a ++ b) = true.
Proof. apply includes_spec. now exists "", b. Qed.

Lemma includes_app_r (a b : string) : Js.includes b (a ++ b) = true.
Proof. apply includes_spec. exists a, "". now rewrite append_empty_r. Qed.

End StringFacts.

(** ** [Set] and [some] *)

Section Collections.

Lemma existsb_eqb_In (x : string) (l : list string) :
  existsb (String.eqb x) l = true <-> In x l.
Proof.
  rewrite existsb_exists. split.
  - intros [y [Hy Heq]]. apply String.eqb_eq in Heq. now subst.
  - intros H. exists x. split; [assumption | apply String.eqb_refl].
Qed.

Lemma uniqFrom_In (seen l : list string) (x : string) :
  In x (Js.uniqFrom seen l) <-> In x l /\ ~ In x seen.
Proof.
  revert seen. induction l as [|y l IH]; intros seen; simpl.
  - tauto.
  - destruct (existsb (String.eqb y) seen) eqn:E.
    + apply existsb_eqb_In in E. rewrite IH. split.
      * tauto.
      * intros [[-> | H] Hn]; tauto.
    + assert (~ In y seen) as Hy.
      { intros H. apply existsb_eqb_In in H. congruence. }
      simpl. rewrite IH. simpl. split.
      * intros [-> | [H Hn]]; [tauto |]. split; [tauto |]. tauto.
      * intros [[-> | H] Hn]; [tauto |].
        destruct (String.string_dec y x) as [-> | Hne]; [tauto |].
        right. split; [assumption |]. intros [? | ?]; tauto.
Qed.

Lemma uniqFrom_NoDup (seen l : list string) : List.NoDup (Js.uniqFrom seen l).
Proof.
  revert seen. induction l as [|y l IH]; intros seen; simpl.
  - constructor.
  - destruct (existsb (String.eqb y) seen); [apply IH |].
    constructor; [| apply IH].
    rewrite uniqFrom_In. simpl. tauto.
Qed.

Lemma setOf_In (l : list string) (x : string) : In x (Js.setOf l) <-> In x l.
Proof. unfold Js.setOf. rewrite uniqFrom_In. simpl. tauto. Qed.

Lemma some_total {A : Type} (f : A -> bool) (l : list A) :
  Js.some (fun x => Js.Returns (f x)) l = Js.Returns (existsb f l).
Proof.
  induction l as [|x l IH]; simpl; [reflexivity |].
  destruct (f x); simpl; [reflexivity | apply IH].
Qed.

Lemma some_ext {A : Type} (f g : A -> Js.outcome bool) (l : list A) :
  (forall x, f x = g x) -> Js.some f l = Js.some g l.
Proof.
  intros H. induction l as [|x l IH]; simpl; [reflexivity |].
  now rewrite H, IH.
Qed.

End Collections.

(** ** The bad-word matcher *)

Section Matcher.

Lemma leet_In (word v : string) :
  In v (AntiBad.generateLeetVariations word) <->
  v = word \/
  exists c r, In (c, r) AntiBad.specLeetSubstitutions /\
              Js.includesChar c word = true /\ v = Js.replaceAll c r word.
Proof.
  unfold AntiBad.generateLeetVariations. rewrite setOf_In. split.
  - intros H.
    destruct (Js.includesChar "a" word) eqn:Ha;
    destruct (Js.includesChar "e" word) eqn:He;
    destruct (Js.includesChar "i" word) eqn:Hi;
    destruct (Js.includesChar "s" word) eqn:Hs;
    destruct (Js.includesChar "o" word) eqn:Ho;
    cbn [app In] in H;
    repeat (destruct H as [H | H]; [symmetry in H |]); try contradiction;
    first [ now left
          | right; refine (ex_intro _ _ (ex_intro _ _ (conj _ (conj _ H))));
            [ cbn; tauto | assumption ] ].
  - intros [-> | (c & r & Hin & Hc & ->)];
      destruct (Js.includesChar "a" word) eqn:Ha;
      destruct (Js.includesChar "e" word) eqn:He;
      destruct (Js.includesChar "i" word) eqn:Hi;
      destruct (Js.includesChar "s" word) eqn:Hs;
      destruct (Js.includesChar "o" word) eqn:Ho;
      cbn [app In]; try tauto;
      cbn [AntiBad.specLeetSubstitutions In] in Hin;
      repeat (destruct Hin as [Hin | Hin];
              [inversion Hin; subst c r; clear Hin |]);
      try contradiction; try congruence; tauto.
Qed.

Lemma leet_self (word : string) : In word (AntiBad.generateLeetVariations word).
Proof. apply leet_In. now left. Qed.

Lemma normalTest_leet (lowerText badWord : string) :
  AntiBad.normalTest lowerText badWord =
  Js.Returns (existsb (fun variation => Js.includes variation lowerText)
                      (AntiBad.generateLeetVariations badWord)).
Proof.
  unfold AntiBad.normalTest.
  destruct (_ || _ || _ || _) eqn:E; [| reflexivity].
  f_equal. symmetry. apply existsb_exists. exists badWord.
  split; [apply leet_self |].
  rewrite !orb_true_iff in E. destruct E as [[[E | E] | E] | E].
  - eapply includes_trans; [| exact E].
    apply includes_spec. now exists " ", " ".
  - apply startsWith_spec in E. destruct E as [post ->].
    rewrite append_assoc. apply includes_app_l.
  - apply endsWith_spec in E. destruct E as [pre ->].
    eapply includes_trans; [apply includes_app_r with (a := " ") |].
    apply includes_app_r.
  - apply String.eqb_eq in E. subst. apply includes_refl.
Qed.

Lemma containsBadWord_normal (text : string) (W : list string) (ft : string) :
  ft <> "strict" -> ft <> "loose" ->
  AntiBad.containsBadWord text W ft =
  Js.Returns
    (negb (String.eqb text "") &&
     existsb (fun w => existsb (fun v => Js.includes v (Js.toLowerCase text))
                               (AntiBad.generateLeetVariations w)) W).
Proof.
  intros Hs Hl. unfold AntiBad.containsBadWord.
  apply String.eqb_neq in Hs, Hl. rewrite Hs, Hl.
  destruct (String.eqb text ""); [reflexivity |].
  destruct W as [|w W]; [reflexivity |].
  cbn [length Nat.eqb orb negb andb].
  rewrite <- some_total. apply some_ext. intros x. apply normalTest_leet.
Qed.

End Matcher.

(** C4.  Under the filter type ['normal'] (and every filter type other than
    ['strict'] and ['loose'], which share its branch) the variants of a word
    are the word itself and, for each pair (letter, replacement) of the
    list a-@, a-4, e-3, i-1, i-!, s-5, s-$, o-0 whose letter occurs in the
    word, the word with every occurrence of that one letter replaced; the
    list has no duplicates and no variant mixes two letters.  A text matches
    exactly when it is non-empty and its lower-cased form contains a variant
    of some listed word; "pl4ntkiller" matches the list holding "plant". *)
Theorem leet_variants_and_normal_match :
  (forall word v,
      In v (AntiBad.generateLeetVariations word) <->
      v = word \/
      exists c r, In (c, r) AntiBad.specLeetSubstitutions /\
                  Js.includesChar c word = true /\
                  v = Js.replaceAll c r word) /\
  (forall word, List.NoDup (AntiBad.generateLeetVariations word)) /\
  (forall text W,
      AntiBad.containsBadWord text W "normal" = Js.Returns true <->
      text <> "" /\
      exists w v, In w W /\ In v (AntiBad.generateLeetVariations w) /\
                  Js.includes v (Js.toLowerCase text) = true) /\
  (forall text W, exists b,
      AntiBad.containsBadWord text W "normal" = Js.Returns b) /\
  AntiBad.generateLeetVariations "plass" =
    ["plass"; "pl@ss"; "pl4ss"; "pla55"; "pla$$"] /\
  AntiBad.containsBadWord "pl4ntkiller" ["plant"] "normal" = Js.Returns true.
Proof.
  split; [exact leet_In |].
  split; [intros word; apply uniqFrom_NoDup |].
  split; [| split; [| split; [vm_compute; reflexivity | vm_compute; reflexivity]]].
  - intros text W. rewrite containsBadWord_normal by discriminate.
    split.
    + intros H. injection H as H. apply andb_true_iff in H. destruct H as [Ht H].
      split.
      * intros ->. discriminate.
      * apply existsb_exists in H. destruct H as (w & Hw & H).
        apply existsb_exists in H. destruct H as (v & Hv & H).
        now exists w, v.
    + intros [Ht (w & v & Hw & Hv & H)]. f_equal. apply andb_true_iff. split.
      * apply String.eqb_neq in Ht. now rewrite Ht.
      * apply existsb_exists. exists w. split; [assumption |].
        apply existsb_exists. now exists v.
  - intros text W. rewrite containsBadWord_normal by discriminate. eauto.
Qed.

(** C10.  An empty text or an empty word list is a non-match for
    [containsBadWord], whatever the filter type, and for
    [containsTriggerWord]: the call returns [false] and does not throw. *)
Theorem empty_input_is_no_match :
  (forall W ft, AntiBad.containsBadWord "" W ft = Js.Returns false) /\
  (forall text ft, AntiBad.containsBadWord text [] ft = Js.Returns false) /\
  (forall W, AutoBlock.containsTriggerWord "" W = Js.Returns false) /\
  (forall text, AutoBlock.containsTriggerWord text [] = Js.Returns false).
Proof.
  split; [| split; [| split]].
  - intros W ft. reflexivity.
  - intros text ft. unfold AntiBad.containsBadWord. cbn [length Nat.eqb].
    now rewrite orb_true_r.
  - intros W. reflexivity.
  - intros text. unfold AutoBlock.containsTriggerWord. cbn [length Nat.eqb].
    now rewrite orb_true_r.
Qed.

(** ** The key [`${groupJid}:${userJid}`] and the warn counters *)

Section Keys.

Lemma key_cons (c : ascii) (g u : string) :
  AntiLink.key (String c g) u = String c (AntiLink.key g u).
Proof. reflexivity. Qed.

Lemma noColon_cons (c : ascii) (g : string) :
  AntiLink.noColon (String c g) <-> c <> ":"%char /\ AntiLink.noColon g.
Proof.
  unfold AntiLink.noColon. cbn [Js.includesChar]. rewrite orb_false_iff, Ascii.eqb_neq.
  split; intros [H1 H2]; split; congruence.
Qed.

Lemma key_inj (g1 u1 g2 u2 : string) :
  AntiLink.noColon g1 -> AntiLink.noColon g2 ->
  AntiLink.key g1 u1 = AntiLink.key g2 u2 -> g1 = g2 /\ u1 = u2.
Proof.
  revert g2. induction g1 as [|c g1 IH]; intros [|d g2] H1 H2 E.
  - cbn [Js.startsWith String.append AntiLink.key] in E. injection E as ->. now split.
  - apply noColon_cons in H2. rewrite key_cons in E. cbn [Js.startsWith String.append AntiLink.key] in E.
    injection E as E _. destruct H2 as [H2 _]. congruence.
  - apply noColon_cons in H1. rewrite key_cons in E. cbn [Js.startsWith String.append AntiLink.key] in E.
    injection E as E _. destruct H1 as [H1 _]. congruence.
  - apply noColon_cons in H1, H2. rewrite !key_cons in E.
    injection E as -> E. destruct (IH g2) as [-> ->]; tauto.
Qed.

Lemma prefix_of_key (g1 g2 u2 : string) :
  AntiLink.noColon g1 -> AntiLink.noColon g2 ->
  Js.startsWith (g1 ++ ":") (AntiLink.key g2 u2) = true -> g1 = g2.
Proof.
  revert g2. induction g1 as [|c g1 IH]; intros [|d g2] H1 H2 E.
  - reflexivity.
  - apply noColon_cons in H2. rewrite key_cons in E. cbn [Js.startsWith String.append AntiLink.key] in E.
    apply andb_true_iff in E. destruct E as [E _].
    apply Ascii.eqb_eq in E. destruct H2 as [H2 _]. congruence.
  - apply noColon_cons in H1. cbn [Js.startsWith String.append AntiLink.key] in E.
    apply andb_true_iff in E. destruct E as [E _].
    apply Ascii.eqb_eq in E. destruct H1 as [H1 _]. congruence.
  - apply noColon_cons in H1, H2. rewrite key_cons in E. cbn [Js.startsWith String.append AntiLink.key] in E.
    apply andb_true_iff in E. destruct E as [E1 E2].
    apply Ascii.eqb_eq in E1. subst d. f_equal. apply IH; tauto.
Qed.

Context {V : Type}.


Lemma fold_delete_other (p : string) (l : list string) (m : gmap string V)
    (k : string) :
  Js.startsWith p k = false ->
  fold_left (AntiLink.deleteIf p) l m !! k = m !! k.
Proof.
  intros Hk. revert m. induction l as [|x l IH]; intros m; simpl.
  - reflexivity.
  - rewrite IH. unfold AntiLink.deleteIf. destruct (Js.startsWith p x) eqn:Hx.
    + apply lookup_delete_ne. congruence.
    + reflexivity.
Qed.

Lemma fold_delete_absent (p : string) (l : list string) (m : gmap string V)
    (k : string) :
  m !! k = None -> fold_left (AntiLink.deleteIf p) l m !! k = None.
Proof.
  revert m. induction l as [|x l IH]; intros m Hm; simpl.
  - assumption.
  - apply IH. unfold AntiLink.deleteIf. destruct (Js.startsWith p x).
    + rewrite lookup_delete. case_decide; [reflexivity | assumption].
    + assumption.
Qed.

Lemma fold_delete_hit (p : string) (l : list string) (m : gmap string V)
    (k : string) :
  Js.startsWith p k = true -> In k l ->
  fold_left (AntiLink.deleteIf p) l m !! k = None.
Proof.
  intros Hk. revert m. induction l as [|x l IH]; intros m Hin; simpl.
  - destruct Hin.
  - destruct Hin as [-> | Hin]; [| now apply IH].
    apply fold_delete_absent. unfold AntiLink.deleteIf. rewrite Hk.
    apply lookup_delete_eq.
Qed.

Lemma deletePrefixed_lookup (p : string) (m : gmap string V) (k : string) :
  AntiLink.deletePrefixed p m !! k =
  if Js.startsWith p k then None else m !! k.
Proof.
  unfold AntiLink.deletePrefixed.
  destruct (Js.startsWith p k) eqn:Hk.
  - destruct (m !! k) as [v|] eqn:Hm.
    + apply fold_delete_hit; [assumption |].
      apply in_map_iff. exists (k, v). split; [reflexivity |].
      apply list_elem_of_In, elem_of_map_to_list. assumption.
    + now apply fold_delete_absent.
  - now apply fold_delete_other.
Qed.

End Keys.

(** C8, as the code has it.  For two distinct pairs whose group ids contain
    no colon, the keys differ, and incrementing or resetting the counter of
    the first pair, or clearing the counters of the first group when the
    groups differ, leaves the count read for the second pair unchanged (the
    counters of antibad.js are the same functions). *)
Theorem warn_counter_frame (g1 u1 g2 u2 : string) (warnCounts : gmap string nat) :
  AntiLink.noColon g1 -> AntiLink.noColon g2 -> (g1, u1) <> (g2, u2) ->
  AntiLink.key g1 u1 <> AntiLink.key g2 u2 /\
  AntiLink.getWarnCount g2 u2 (AntiLink.incrementWarnCount g1 u1 warnCounts).1
    = AntiLink.getWarnCount g2 u2 warnCounts /\
  AntiLink.getWarnCount g2 u2 (AntiLink.resetWarnCount g1 u1 warnCounts)
    = AntiLink.getWarnCount g2 u2 warnCounts /\
  AntiBadWarn.getBadWarnCount g2 u2
      (AntiBadWarn.incrementBadWarnCount g1 u1 warnCounts).1
    = AntiBadWarn.getBadWarnCount g2 u2 warnCounts /\
  (g1 <> g2 ->
   AntiLink.getWarnCount g2 u2 (AntiLink.clearAllWarns g1 warnCounts)
     = AntiLink.getWarnCount g2 u2 warnCounts).
Proof.
  intros H1 H2 Hne.
  assert (AntiLink.key g1 u1 <> AntiLink.key g2 u2) as Hk.
  { intros E. apply key_inj in E; [| assumption | assumption].
    destruct E as [-> ->]. now apply Hne. }
  assert (AntiLink.getWarnCount g2 u2
            (AntiLink.incrementWarnCount g1 u1 warnCounts).1
          = AntiLink.getWarnCount g2 u2 warnCounts) as Hinc.
  { unfold AntiLink.incrementWarnCount, AntiLink.getWarnCount. cbn [fst].
    now rewrite lookup_insert_ne. }
  split; [assumption |]. split; [assumption |]. split; [| split].
  - unfold AntiLink.resetWarnCount, AntiLink.getWarnCount.
    now rewrite lookup_delete_ne.
  - exact Hinc.
  - intros Hg. unfold AntiLink.clearAllWarns, AntiLink.getWarnCount.
    rewrite deletePrefixed_lookup.
    destruct (Js.startsWith (g1 ++ ":") (AntiLink.key g2 u2)) eqn:E.
    + apply prefix_of_key in E; [contradiction | assumption | assumption].
    + reflexivity.
Qed.

Lemma warn_counter_frame_witness :
  AntiLink.getWarnCount "120363@g.us" "2547:1@s.whatsapp.net"
    (AntiLink.incrementWarnCount "120364@g.us" "2547:1@s.whatsapp.net" ∅).1
  = AntiLink.getWarnCount "120363@g.us" "2547:1@s.whatsapp.net" ∅.
Proof.
  refine (proj1 (proj2
    (warn_counter_frame "120364@g.us" "2547:1@s.whatsapp.net"
                        "120363@g.us" "2547:1@s.whatsapp.net" ∅ _ _ _))).
  - reflexivity.
  - reflexivity.
  - discriminate.
Defined.

(** C8 as stated fails: two distinct pairs can share a key, and then an
    operation on one pair is seen through the other. *)
Lemma warn_key_collision :
  ("a", "b:c") <> ("a:b", "c") /\
  AntiLink.key "a" "b:c" = AntiLink.key "a:b" "c" /\
  AntiLink.getWarnCount "a:b" "c" ∅ = 0%nat /\
  AntiLink.getWarnCount "a:b" "c" (AntiLink.incrementWarnCount "a" "b:c" ∅).1
    = 1%nat /\
  AntiLink.getWarnCount "a:b" "c" {[AntiLink.key "a:b" "c" := 2%nat]} = 2%nat /\
  AntiLink.getWarnCount "a:b" "c"
    (AntiLink.clearAllWarns "a" {[AntiLink.key "a:b" "c" := 2%nat]}) = 0%nat.
Proof.
  split; [discriminate |]. split; [reflexivity |].
  split; [reflexivity |]. split; [vm_compute; reflexivity |].
  split; [vm_compute; reflexivity |].
  unfold AntiLink.clearAllWarns, AntiLink.getWarnCount.
  rewrite deletePrefixed_lookup. reflexivity.
Qed.

(** ** The message-rate window *)

Section RateWindow.

Implicit Types (m : gmap string (list Z)) (g u : string) (now w : Z).

Lemma add_lookup g u now m :
  AntiSpam.addUserMessage g u now m !! AntiSpam.key g u =
  Some (let ts := (AntiSpam.timestampsOf g u m ++ [now])%list in
        if (20 <? length ts)%nat then tl ts else ts).
Proof.
  unfold AntiSpam.addUserMessage, AntiSpam.timestampsOf.
  rewrite lookup_insert_eq.
  destruct (m !! AntiSpam.key g u) as [ts|] eqn:E.
  - now rewrite E.
  - now rewrite lookup_insert_eq.
Qed.

Lemma add_lookup_ne g u now m (k : string) :
  k <> AntiSpam.key g u -> AntiSpam.addUserMessage g u now m !! k = m !! k.
Proof.
  intros Hk. unfold AntiSpam.addUserMessage.
  rewrite lookup_insert_ne by congruence.
  destruct (m !! AntiSpam.key g u); [reflexivity |].
  now rewrite lookup_insert_ne by congruence.
Qed.

Lemma add_timestamps g u now m :
  AntiSpam.timestampsOf g u (AntiSpam.addUserMessage g u now m) =
  let ts := (AntiSpam.timestampsOf g u m ++ [now])%list in
  if (20 <? length ts)%nat then tl ts else ts.
Proof.
  unfold AntiSpam.timestampsOf at 1. now rewrite add_lookup.
Qed.

Lemma add_timestamps_In g u now m (t : Z) :
  In t (AntiSpam.timestampsOf g u (AntiSpam.addUserMessage g u now m)) ->
  In t (AntiSpam.timestampsOf g u m) \/ t = now.
Proof.
  rewrite add_timestamps. cbv zeta.
  set (ts := (AntiSpam.timestampsOf g u m ++ [now])%list).
  intros H.
  assert (In t ts) as Hin.
  { destruct (20 <? length ts)%nat; [| assumption].
    destruct ts; [destruct H | now right]. }
  apply in_app_or in Hin. destruct Hin as [Hin | [<- | []]]; auto.
Qed.

Lemma add_timestamps_last g u now m :
  In now (AntiSpam.timestampsOf g u (AntiSpam.addUserMessage g u now m)).
Proof.
  rewrite add_timestamps. cbv zeta.
  destruct (AntiSpam.timestampsOf g u m) as [|t ts]; [now left |].
  cbn [app]. destruct (20 <? _)%nat.
  - cbn [tl]. apply in_or_app. right. now left.
  - right. apply in_or_app. right. now left.
Qed.

Lemma count_spec g u w now m :
  let kept := List.filter (fun time => (now - time <=? w * 1000)%Z)
                          (AntiSpam.timestampsOf g u m) in
  AntiSpam.timestampsOf g u (AntiSpam.getUserMessageCount g u w now m).1 = kept /\
  (AntiSpam.getUserMessageCount g u w now m).2 = length kept.
Proof.
  unfold AntiSpam.getUserMessageCount, AntiSpam.timestampsOf.
  destruct (m !! AntiSpam.key g u) as [ts|] eqn:E; cbn [fst snd default].
  - rewrite lookup_insert_eq. now split.
  - rewrite E. now split.
Qed.

Lemma add_bounded g u now m :
  AntiSpam.bounded m -> AntiSpam.bounded (AntiSpam.addUserMessage g u now m).
Proof.
  intros Hb k ts Hk.
  destruct (String.eq_dec k (AntiSpam.key g u)) as [-> | Hne].
  - rewrite add_lookup in Hk. injection Hk as <-. cbv zeta.
    assert (length (AntiSpam.timestampsOf g u m) <= 20)%nat as Hold.
    { unfold AntiSpam.timestampsOf.
      destruct (m !! AntiSpam.key g u) as [old|] eqn:E; cbn [default length].
      - eapply Hb, E.
      - lia. }
    destruct (Nat.ltb_spec 20
                (length (AntiSpam.timestampsOf g u m ++ [now])%list)) as [H | H].
    + rewrite length_app in H. cbn [length] in H.
      destruct (AntiSpam.timestampsOf g u m) as [|t old]; cbn [app tl length] in *.
      * lia.
      * rewrite length_app. cbn [length]. lia.
    + exact H.
  - rewrite add_lookup_ne in Hk by assumption. eapply Hb, Hk.
Qed.

Lemma filter_length_le {A : Type} (f : A -> bool) (l : list A) :
  (length (List.filter f l) <= length l)%nat.
Proof.
  induction l as [|x l IH]; cbn [List.filter length]; [lia |].
  destruct (f x); cbn [length]; lia.
Qed.

Lemma In_length_pos {A : Type} (x : A) (l : list A) :
  In x l -> (1 <= length l)%nat.
Proof. destruct l; [intros [] | cbn [length]; lia]. Qed.

Lemma no_In_length {A : Type} (l : list A) :
  (forall x, ~ In x l) -> length l = 0%nat.
Proof. destruct l as [|x l]; [reflexivity |]. intros H. destruct (H x). now left. Qed.

Lemma count_bounded g u w now m :
  AntiSpam.bounded m ->
  AntiSpam.bounded (AntiSpam.getUserMessageCount g u w now m).1.
Proof.
  intros Hb k ts Hk. unfold AntiSpam.getUserMessageCount in Hk.
  destruct (m !! AntiSpam.key g u) as [old|] eqn:E; cbn [fst] in Hk.
  - destruct (String.eq_dec k (AntiSpam.key g u)) as [-> | Hne].
    + rewrite lookup_insert_eq in Hk. injection Hk as <-.
      etransitivity; [apply filter_length_le | eapply Hb, E].
    + rewrite lookup_insert_ne in Hk by congruence. eapply Hb, Hk.
  - eapply Hb, Hk.
Qed.

Lemma step_bounded (o : AntiSpam.op) m :
  AntiSpam.bounded m -> AntiSpam.bounded (AntiSpam.step o m).
Proof.
  intros Hb. destruct o as [g u now | g u w now | g u | g |]; cbn [AntiSpam.step].
  - now apply add_bounded.
  - now apply count_bounded.
  - intros k ts Hk. unfold AntiSpam.clearUserMessages in Hk.
    rewrite lookup_delete in Hk. case_decide; [discriminate |]. eapply Hb, Hk.
  - intros k ts Hk. unfold AntiSpam.clearAllGroupMessages in Hk.
    rewrite deletePrefixed_lookup in Hk.
    destruct (Js.startsWith _ k); [discriminate |]. eapply Hb, Hk.
  - intros k ts Hk. cbn in Hk. rewrite lookup_empty in Hk. discriminate.
Qed.

Lemma run_bounded (ops : list AntiSpam.op) : AntiSpam.bounded (AntiSpam.run ops).
Proof.
  unfold AntiSpam.run.
  assert (forall m, AntiSpam.bounded m ->
                    AntiSpam.bounded (fold_left (fun m o => AntiSpam.step o m) ops m))
    as H.
  { induction ops as [|o ops IH]; intros m Hb; cbn [fold_left].
    - assumption.
    - apply IH. now apply step_bounded. }
  apply H. intros k ts Hk. rewrite lookup_empty in Hk. discriminate.
Qed.

End RateWindow.

(** C2.  [getUserMessageCount] keeps, of the timestamps held for the key,
    those [t] with [now - t <= w * 1000], leaves that list as the key's
    state (an absent key stays absent and counts 0) and returns its length.
    Recording and counting at the same instant with window 0 gives at least
    1.  When no held timestamp is later than the instant [t0] of the last
    recording and the clock has moved past [t0] by more than the window, the
    count is 0. *)
Theorem message_count_filters (g u : string) (w now : Z)
    (userMessages : gmap string (list Z)) :
  let kept := List.filter (fun time => (now - time <=? w * 1000)%Z)
                          (AntiSpam.timestampsOf g u userMessages) in
  let r := AntiSpam.getUserMessageCount g u w now userMessages in
  AntiSpam.timestampsOf g u r.1 = kept /\
  r.2 = length kept /\
  (forall ts, userMessages !! AntiSpam.key g u = Some ts ->
              r.1 = <[AntiSpam.key g u := kept]> userMessages) /\
  (userMessages !! AntiSpam.key g u = None -> r.1 = userMessages) /\
  (1 <= (AntiSpam.getUserMessageCount g u 0 now
           (AntiSpam.addUserMessage g u now userMessages)).2)%nat /\
  (forall t0 later,
      Forall (fun t => (t <= t0)%Z) (AntiSpam.timestampsOf g u userMessages) ->
      (w * 1000 < later - t0)%Z ->
      (AntiSpam.getUserMessageCount g u w later
         (AntiSpam.addUserMessage g u t0 userMessages)).2 = 0%nat).
Proof.
  intros kept r.
  destruct (count_spec g u w now userMessages) as [H1 H2].
  split; [exact H1 |]. split; [exact H2 |].
  split; [| split; [| split]].
  - intros ts E. subst r kept.
    unfold AntiSpam.getUserMessageCount, AntiSpam.timestampsOf.
    now rewrite E.
  - intros E. subst r. unfold AntiSpam.getUserMessageCount. now rewrite E.
  - destruct (count_spec g u 0 now
                (AntiSpam.addUserMessage g u now userMessages)) as [_ ->].
    pose proof (add_timestamps_last g u now userMessages) as Hin.
    assert (In now (List.filter (fun time => (now - time <=? 0 * 1000)%Z)
                      (AntiSpam.timestampsOf g u
                         (AntiSpam.addUserMessage g u now userMessages)))) as H.
    { apply filter_In. split; [assumption |]. apply Z.leb_le. lia. }
    eapply In_length_pos, H.
  - intros t0 later Hold Hlater.
    destruct (count_spec g u w later
                (AntiSpam.addUserMessage g u t0 userMessages)) as [_ ->].
    apply no_In_length. intros t Hin.
    apply filter_In in Hin. destruct Hin as [Hin Ht].
    apply Z.leb_le in Ht. apply add_timestamps_In in Hin.
    destruct Hin as [Hin | ->]; [| lia].
    rewrite List.Forall_forall in Hold. apply Hold in Hin. lia.
Qed.

Lemma message_count_filters_witness :
  (AntiSpam.getUserMessageCount "g@g.us" "u@s.whatsapp.net" 5 3000
     {[AntiSpam.key "g@g.us" "u@s.whatsapp.net" := [1000; 2000]%Z]}).2 = 2%nat /\
  Forall (fun t => (t <= 2500)%Z)
    (AntiSpam.timestampsOf "g@g.us" "u@s.whatsapp.net"
       {[AntiSpam.key "g@g.us" "u@s.whatsapp.net" := [1000; 2000]%Z]}) /\
  (5 * 1000 < 9000 - 2500)%Z /\
  (AntiSpam.getUserMessageCount "g@g.us" "u@s.whatsapp.net" 5 9000
     (AntiSpam.addUserMessage "g@g.us" "u@s.whatsapp.net" 2500
        {[AntiSpam.key "g@g.us" "u@s.whatsapp.net" := [1000; 2000]%Z]})).2
  = 0%nat.
Proof.
  pose proof (message_count_filters "g@g.us" "u@s.whatsapp.net" 5 3000
                {[AntiSpam.key "g@g.us" "u@s.whatsapp.net" := [1000; 2000]%Z]})
    as H.
  cbv zeta in H.
  destruct H as (_ & H2 & _ & _ & _ & H6).
  assert (Forall (fun t => (t <= 2500)%Z)
            (AntiSpam.timestampsOf "g@g.us" "u@s.whatsapp.net"
               {[AntiSpam.key "g@g.us" "u@s.whatsapp.net" := [1000; 2000]%Z]}))
    as Hall.
  { unfold AntiSpam.timestampsOf. rewrite lookup_singleton_eq. cbn [default].
    repeat constructor; lia. }
  split; [| split; [exact Hall | split; [lia |]]].
  - rewrite H2. unfold AntiSpam.timestampsOf. rewrite lookup_singleton_eq.
    reflexivity.
  - apply (H6 2500%Z 9000%Z Hall). lia.
Defined.

(** C9.  From a map in which no key holds more than 20 timestamps,
    [addUserMessage] leaves the key with its old timestamps followed by the
    new one, minus the oldest when 20 were held: at most 20, in the order
    they were recorded, and in ascending order when they were so and the
    clock did not run backwards.  Every operation on the map keeps the
    20-entry bound, which therefore holds in every state the module
    reaches. *)
Theorem rate_window_bounded (g u : string) (now : Z)
    (userMessages : gmap string (list Z)) :
  AntiSpam.bounded userMessages ->
  let old := AntiSpam.timestampsOf g u userMessages in
  let new := AntiSpam.timestampsOf g u
               (AntiSpam.addUserMessage g u now userMessages) in
  (length new <= 20)%nat /\
  new = (if (length old <? 20)%nat then old ++ [now] else tl old ++ [now])%list /\
  (StronglySorted Z.le old -> Forall (fun t => (t <= now)%Z) old ->
   StronglySorted Z.le new) /\
  (forall o, AntiSpam.bounded (AntiSpam.step o userMessages)) /\
  (forall ops, AntiSpam.bounded (AntiSpam.run ops)).
Proof.
  intros Hb old new.
  assert (length old <= 20)%nat as Hold.
  { subst old. unfold AntiSpam.timestampsOf.
    destruct (userMessages !! AntiSpam.key g u) as [ts|] eqn:E;
      cbn [default length]; [eapply Hb, E | lia]. }
  assert (new = (if (length old <? 20)%nat then old ++ [now]
                 else tl old ++ [now])%list) as Hnew.
  { subst new. rewrite add_timestamps. cbv zeta. fold old.
    rewrite length_app. cbn [length].
    destruct (Nat.ltb_spec 20 (length old + 1)) as [H | H];
      destruct (Nat.ltb_spec (length old) 20) as [H' | H']; try lia.
    - destruct old; [cbn [length] in *; lia | reflexivity].
    - reflexivity. }
  split; [| split; [exact Hnew | split; [| split]]].
  - rewrite Hnew. destruct (Nat.ltb_spec (length old) 20) as [H | H];
      rewrite length_app; cbn [length]; [lia |].
    destruct old; cbn [tl length] in *; lia.
  - intros Hs Hle. rewrite Hnew.
    assert (StronglySorted Z.le (old ++ [now])%list) as Hall.
    { apply StronglySorted_app. split; [| split].
      - intros x1 x2 H1 H2. apply list_elem_of_In in H1, H2.
        destruct H2 as [<- | []].
        rewrite List.Forall_forall in Hle. now apply Hle.
      - assumption.
      - repeat constructor. }
    destruct (length old <? 20)%nat; [assumption |].
    destruct old as [|t old']; [assumption |].
    cbn [tl app] in *. now apply StronglySorted_inv in Hall.
  - intros o. now apply step_bounded.
  - apply run_bounded.
Qed.

Lemma rate_window_bounded_witness :
  AntiSpam.bounded {[AntiSpam.key "g@g.us" "u@s.whatsapp.net" := [1000; 2000]%Z]} /\
  AntiSpam.timestampsOf "g@g.us" "u@s.whatsapp.net"
    (AntiSpam.addUserMessage "g@g.us" "u@s.whatsapp.net" 3000
       {[AntiSpam.key "g@g.us" "u@s.whatsapp.net" := [1000; 2000]%Z]})
  = [1000; 2000; 3000]%Z.
Proof.
  assert (AntiSpam.bounded
            {[AntiSpam.key "g@g.us" "u@s.whatsapp.net" := [1000; 2000]%Z]}) as Hb.
  { intros k ts Hk. apply lookup_singleton_Some in Hk. destruct Hk as [_ <-].
    cbn [length]. lia. }
  split; [exact Hb |].
  pose proof (rate_window_bounded "g@g.us" "u@s.whatsapp.net" 3000 _ Hb) as H.
  cbv zeta in H. destruct H as (_ & H & _). rewrite H.
  unfold AntiSpam.timestampsOf. rewrite lookup_singleton_eq. reflexivity.
Defined.

(** ** Ordered queries *)

Section Queries.

Context {A : Type} (col : A -> Z).

Lemma insertDesc_perm (x : A) (l : list A) :
  Permutation (Sequelize.insertDesc col x l) (x :: l).
Proof.
  induction l as [|y l IH]; cbn [Sequelize.insertDesc]; [reflexivity |].
  destruct (col y <=? col x)%Z; [reflexivity |].
  rewrite IH. apply perm_swap.
Qed.

Lemma orderDesc_perm (l : list A) : Permutation (Sequelize.orderDesc col l) l.
Proof.
  induction l as [|x l IH]; cbn; [reflexivity |].
  fold (Sequelize.orderDesc col l). rewrite insertDesc_perm. now constructor.
Qed.

Lemma insertDesc_sorted (x : A) (l : list A) :
  Sequelize.newestFirst col l -> Sequelize.newestFirst col (Sequelize.insertDesc col x l).
Proof.
  unfold Sequelize.newestFirst.
  induction l as [|y l IH]; intros Hs; cbn [Sequelize.insertDesc].
  - repeat constructor.
  - apply StronglySorted_inv in Hs. destruct Hs as [Hl Hy].
    destruct (Z.leb_spec (col y) (col x)) as [H | H].
    + constructor; [now constructor |].
      constructor; [assumption |].
      eapply Forall_impl; [exact Hy |]. cbn. intros b Hb. lia.
    + constructor; [now apply IH |].
      rewrite (insertDesc_perm x l). constructor; [lia | assumption].
Qed.

Lemma orderDesc_sorted (l : list A) : Sequelize.newestFirst col (Sequelize.orderDesc col l).
Proof.
  induction l as [|x l IH]; cbn; [constructor |].
  now apply insertDesc_sorted.
Qed.

Lemma findAll_ordered (where_ : A -> bool) (table : list A) :
  Permutation (Sequelize.findAll where_ (Some col) table)
              (List.filter where_ table) /\
  Sequelize.newestFirst col (Sequelize.findAll where_ (Some col) table).
Proof.
  unfold Sequelize.findAll. split; [apply orderDesc_perm | apply orderDesc_sorted].
Qed.

End Queries.

(** ** The bulk queries *)

Section BulkQueries.

Lemma status_eqb_On (s : Sequelize.status) :
  Sequelize.status_eqb s Sequelize.On = true <-> s = Sequelize.On.
Proof. destruct s; cbn; split; congruence. Qed.

Lemma getAllAntiSpamGroups_enabled (AntiSpamDB : list AntiSpam.AntiSpamRow) :
  (forall r, In r (AntiSpam.getAllAntiSpamGroups AntiSpamDB) <->
             In r AntiSpamDB /\ AntiSpam.status r = Sequelize.On) /\
  Sequelize.newestFirst AntiSpam.updatedAt
    (AntiSpam.getAllAntiSpamGroups AntiSpamDB).
Proof.
  unfold AntiSpam.getAllAntiSpamGroups.
  destruct (findAll_ordered AntiSpam.updatedAt
              (fun r => Sequelize.status_eqb (AntiSpam.status r) Sequelize.On)
              AntiSpamDB) as [Hp Hs].
  split; [| exact Hs].
  intros r. rewrite <- status_eqb_On. split; intros H.
  - apply (Permutation_in _ Hp) in H. now apply filter_In in H.
  - apply (Permutation_in _ (Permutation_sym Hp)). now apply filter_In.
Qed.

Lemma getAllGroupEventsGroups_enabled
    (GroupEventsDB : list GroupEvents.GroupEventsRow) :
  (forall r, In r (GroupEvents.getAllGroupEventsGroups GroupEventsDB) <->
             In r GroupEventsDB /\ GroupEvents.enabled r = true) /\
  Sequelize.newestFirst GroupEvents.updatedAt
    (GroupEvents.getAllGroupEventsGroups GroupEventsDB).
Proof.
  unfold GroupEvents.getAllGroupEventsGroups.
  destruct (findAll_ordered GroupEvents.updatedAt
              (fun r => Bool.eqb (GroupEvents.enabled r) true)
              GroupEventsDB) as [Hp Hs].
  split; [| exact Hs].
  intros r.
  assert (GroupEvents.enabled r = true <->
          Bool.eqb (GroupEvents.enabled r) true = true) as ->.
  { destruct (GroupEvents.enabled r); cbn; tauto. }
  split; intros H.
  - apply (Permutation_in _ Hp) in H. now apply filter_In in H.
  - apply (Permutation_in _ (Permutation_sym Hp)). now apply filter_In.
Qed.

Lemma getAllWarnGroups_all (st : Warn.State) :
  Permutation (Warn.getAllWarnGroups st) (Warn.WarnSettingsDB st) /\
  Sequelize.newestFirst Warn.s_updatedAt (Warn.getAllWarnGroups st).
Proof.
  unfold Warn.getAllWarnGroups.
  destruct (findAll_ordered Warn.s_updatedAt (fun _ => true)
              (Warn.WarnSettingsDB st)) as [Hp Hs].
  split; [| exact Hs].
  rewrite Hp. clear. induction (Warn.WarnSettingsDB st) as [|x l IH]; cbn.
  - reflexivity.
  - now constructor.
Qed.

End BulkQueries.

(** C7, evaluated.  [getAllAntiSpamGroups] and [getAllGroupEventsGroups]
    return exactly the enabled rows, most recently updated first.
    [getAllWarnGroups] has no [where]: it returns every settings row, the
    disabled ones included, as on the table holding one group switched
    off. *)
Theorem bulk_query_enabled_only_but_warn :
  (forall db,
      (forall r, In r (AntiSpam.getAllAntiSpamGroups db) <->
                 In r db /\ AntiSpam.status r = Sequelize.On) /\
      Sequelize.newestFirst AntiSpam.updatedAt (AntiSpam.getAllAntiSpamGroups db)) /\
  (forall db,
      (forall r, In r (GroupEvents.getAllGroupEventsGroups db) <->
                 In r db /\ GroupEvents.enabled r = true) /\
      Sequelize.newestFirst GroupEvents.updatedAt
        (GroupEvents.getAllGroupEventsGroups db)) /\
  (forall st,
      Permutation (Warn.getAllWarnGroups st) (Warn.WarnSettingsDB st) /\
      Sequelize.newestFirst Warn.s_updatedAt (Warn.getAllWarnGroups st)) /\
  let off :=
    {| Warn.s_groupJid := "120363@g.us"; Warn.s_groupName := None;
       Warn.s_status := Sequelize.Off; Warn.s_warn_limit := 3;
       Warn.s_action := Warn.Kick; Warn.s_exempt_admins := true;
       Warn.s_auto_reset_days := 7; Warn.s_updatedAt := 1000 |} in
  Warn.getAllWarnGroups
    {| Warn.WarnSettingsDB := [off]; Warn.WarnsDB := []; Warn.nextId := 1;
       Warn.warnCache := ∅ |} = [off] /\
  Warn.s_status off = Sequelize.Off.
Proof.
  split; [exact getAllAntiSpamGroups_enabled |].
  split; [exact getAllGroupEventsGroups_enabled |].
  split; [exact getAllWarnGroups_all |].
  split; reflexivity.
Qed.

(** ** The warn tracker *)

Section WarnTracker.

Implicit Types (st : Warn.State) (g u : string).

Lemma find_app_None {A : Type} (f : A -> bool) (l l' : list A) :
  List.find f l = None -> List.find f (l ++ l')%list = List.find f l'.
Proof.
  induction l as [|x l IH]; cbn [List.find app]; [reflexivity |].
  destruct (f x); [discriminate | exact IH].
Qed.

Lemma getWarnSettings_some g (now : Z) st :
  g <> "" ->
  exists st1 settings,
    Warn.getWarnSettings g now st = (st1, Some settings) /\
    Warn.s_warn_limit settings = Warn.warnLimitOf g st /\
    Warn.WarnsDB st1 = Warn.WarnsDB st /\
    Warn.nextId st1 = Warn.nextId st /\
    Warn.warnCache st1 = Warn.warnCache st /\
    Warn.warnLimitOf g st1 = Warn.warnLimitOf g st /\
    exists created, Warn.WarnSettingsDB st1 = (Warn.WarnSettingsDB st ++ created)%list.
Proof.
  intros Hg. unfold Warn.getWarnSettings, Warn.warnLimitOf.
  apply String.eqb_neq in Hg. rewrite Hg.
  destruct (List.find _ (Warn.WarnSettingsDB st)) as [s|] eqn:E.
  - exists st, s. rewrite E. repeat split; try reflexivity.
    exists []. now rewrite app_nil_r.
  - eexists _, _. split; [reflexivity |]. cbn.
    rewrite (find_app_None _ _ _ E). cbn. rewrite String.eqb_refl. cbn.
    repeat split; try reflexivity. eexists. reflexivity.
Qed.

Lemma addWarn_spec g u (warnedBy reason : string) (now : Z) st :
  g <> "" ->
  let r := Warn.addWarn g u warnedBy reason now st in
  r.2 = Warn.Added (S (Warn.cacheLen g u st)) (Warn.nextId st)
                   (Warn.warnLimitOf g st) /\
  Warn.cacheLen g u r.1 = S (Warn.cacheLen g u st) /\
  is_Some (Warn.warnCache r.1 !! Warn.key g u) /\
  Warn.warnLimitOf g r.1 = Warn.warnLimitOf g st /\
  (exists row, Warn.WarnsDB r.1 = (Warn.WarnsDB st ++ [row])%list /\
               Warn.ofPair g u row = true) /\
  (exists created,
      Warn.WarnSettingsDB r.1 = (Warn.WarnSettingsDB st ++ created)%list).
Proof.
  intros Hg.
  destruct (getWarnSettings_some g now st Hg)
    as (st1 & s & E & Hlim & Hdb & Hid & Hcache & Hlim1 & Hset).
  unfold Warn.addWarn. rewrite E. cbn zeta. cbn [fst snd].
  unfold Warn.getUserWarnCount, Warn.cacheLen, Warn.cachePush.
  cbn [Warn.warnCache Warn.WarnsDB Warn.WarnSettingsDB Warn.w_id].
  rewrite lookup_insert_eq, Hcache, Hid, Hlim, Hdb.
  cbn [from_option]. unfold id. rewrite length_app. cbn [length].
  split; [f_equal; lia |]. split; [lia |]. split; [eauto |].
  split; [exact Hlim1 |]. split; [| exact Hset].
  eexists. split; [reflexivity |].
  unfold Warn.ofPair. cbn. now rewrite !String.eqb_refl.
Qed.

Lemma addWarns_spec g u (calls : list (string * string * Z)) st :
  g <> "" ->
  let r := Warn.addWarns g u calls st in
  length r.2 = length calls /\
  (forall (n : nat) res,
      r.2 !! n = Some res ->
      exists warnId,
        res = Warn.Added (S (Warn.cacheLen g u st + n)) warnId
                         (Warn.warnLimitOf g st)) /\
  Warn.cacheLen g u r.1 = (Warn.cacheLen g u st + length calls)%nat /\
  (calls <> [] -> is_Some (Warn.warnCache r.1 !! Warn.key g u)) /\
  (exists rows, Warn.WarnsDB r.1 = (Warn.WarnsDB st ++ rows)%list /\
                Forall (fun row => Warn.ofPair g u row = true) rows) /\
  (exists created,
      Warn.WarnSettingsDB r.1 = (Warn.WarnSettingsDB st ++ created)%list).
Proof.
  intros Hg. revert st.
  induction calls as [|[[warnedBy reason] now] calls IH]; intros st;
    cbn [Warn.addWarns]; cbv zeta.
  - cbn [fst snd length]. split; [reflexivity |].
    split; [intros n res H; rewrite lookup_nil in H; discriminate |].
    split; [lia |]. split; [congruence |].
    split; [exists []; split; [now rewrite app_nil_r | constructor] |].
    exists []. now rewrite app_nil_r.
  - destruct (addWarn_spec g u warnedBy reason now st Hg)
      as (H2 & Hlen & Hsome & Hlim & (row & Hdb & Hrow) & (c1 & Hset)).
    cbv zeta in H2, Hlen, Hsome, Hlim, Hdb, Hset.
    specialize (IH (Warn.addWarn g u warnedBy reason now st).1).
    cbv zeta in IH.
    destruct IH as (I1 & I2 & I3 & I4 & (rows & I5 & I5') & (c2 & I6)).
    cbn [fst snd length]. split; [now rewrite I1 |].
    split; [| split; [| split; [| split]]].
    + intros [|n] res H; cbn in H.
      * injection H as <-. rewrite Nat.add_0_r. eauto.
      * apply I2 in H. destruct H as [warnId ->]. exists warnId.
        rewrite Hlen, Hlim. f_equal. lia.
    + rewrite I3, Hlen. lia.
    + intros _. destruct calls as [|c calls].
      * cbn [Warn.addWarns fst]. exact Hsome.
      * apply I4. discriminate.
    + exists (row :: rows). rewrite I5, Hdb, <- app_assoc. split; [reflexivity |].
      now constructor.
    + exists (c1 ++ c2)%list. now rewrite I6, Hset, <- app_assoc.
Qed.

Lemma count_after_clear g u st :
  Warn.getUserWarnCount g u (Warn.clearUserWarns g u st).1 = 0%nat.
Proof.
  unfold Warn.clearUserWarns, Warn.getUserWarnCount. cbn [fst Warn.warnCache Warn.WarnsDB].
  rewrite lookup_delete_eq. unfold Sequelize.count, Sequelize.destroy.
  apply no_In_length. intros row H.
  apply filter_In in H. destruct H as [H Hp].
  apply filter_In in H. destruct H as [_ Hn]. rewrite Hp in Hn. discriminate.
Qed.

Lemma count_zero_cacheLen g u st :
  Warn.getUserWarnCount g u st = 0%nat -> Warn.cacheLen g u st = 0%nat.
Proof.
  unfold Warn.getUserWarnCount, Warn.cacheLen.
  destruct (Warn.warnCache st !! Warn.key g u); cbn [default length]; auto.
Qed.

End WarnTracker.

(** From a state in which [getUserWarnCount] reads 0 for a pair, with a
    non-empty group id, the Nth of successive calls of [addWarn] for the
    pair answers with [warnCount = N] and the limit configured for the
    group; the calls only add warn rows of that pair and, at most, the
    group's settings row; after [clearUserWarns] the count of the pair is
    0. *)
Lemma addWarns_counts_from_zero (g u : string)
    (calls : list (string * string * Z)) (st : Warn.State) :
  g <> "" ->
  Warn.getUserWarnCount g u st = 0%nat ->
  let r := Warn.addWarns g u calls st in
  length r.2 = length calls /\
  (forall (n : nat) res,
      r.2 !! n = Some res ->
      exists warnId, res = Warn.Added (S n) warnId (Warn.warnLimitOf g st)) /\
  Warn.getUserWarnCount g u r.1 = length calls /\
  (exists rows, Warn.WarnsDB r.1 = (Warn.WarnsDB st ++ rows)%list /\
                Forall (fun row => Warn.ofPair g u row = true) rows) /\
  (exists created,
      Warn.WarnSettingsDB r.1 = (Warn.WarnSettingsDB st ++ created)%list) /\
  Warn.getUserWarnCount g u (Warn.clearUserWarns g u r.1).1 = 0%nat.
Proof.
  intros Hg H0 r.
  destruct (addWarns_spec g u calls st Hg) as (H1 & H2 & H3 & H4 & H5 & H6).
  fold r in H1, H2, H3, H4, H5, H6.
  pose proof (count_zero_cacheLen g u st H0) as Hc. rewrite Hc in H2, H3.
  split; [exact H1 |]. split; [exact H2 |].
  split; [| split; [exact H5 | split; [exact H6 | apply count_after_clear]]].
  destruct calls as [|c calls].
  - subst r. cbn [Warn.addWarns fst length]. exact H0.
  - destruct H4 as [l Hl]; [discriminate |].
    unfold Warn.getUserWarnCount. rewrite Hl.
    unfold Warn.cacheLen in H3. rewrite Hl in H3. exact H3.
Qed.

Example addWarns_three :
  (Warn.addWarns "120363@g.us" "2547@s.whatsapp.net"
     [("admin", "spam", 1000%Z); ("admin", "links", 2000%Z);
      ("owner", "insults", 3000%Z)] Warn.initial).2
  = [Warn.Added 1 1 3; Warn.Added 2 2 3; Warn.Added 3 3 3].
Proof. vm_compute. reflexivity. Qed.

(** With an empty group id every call fails, yet each leaves its row. *)
Example addWarn_empty_group :
  let r := Warn.addWarn "" "2547@s.whatsapp.net" "admin" "spam" 1000 Warn.initial in
  r.2 = Warn.Failed /\ length (Warn.WarnsDB r.1) = 1%nat.
Proof. vm_compute. split; reflexivity. Qed.

Section WarnOrder.

Lemma newestFirst_toCached (rows : list Warn.WarnRow) :
  Sequelize.newestFirst Warn.w_createdAt rows ->
  Sequelize.newestFirst Warn.createdAt (map Warn.toCached rows).
Proof.
  unfold Sequelize.newestFirst.
  induction 1 as [|row rows Hs IH Hall]; cbn [map]; constructor.
  - exact IH.
  - apply Forall_forall. intros c Hc. apply list_elem_of_In in Hc.
    apply in_map_iff in Hc.
    destruct Hc as (row' & <- & Hin). rewrite Forall_forall in Hall.
    apply list_elem_of_In in Hin. apply Hall in Hin. exact Hin.
Qed.

Lemma getUserWarns_store_newest_first (g u : string) (st : Warn.State) :
  Warn.warnCache st !! Warn.key g u = None ->
  Sequelize.newestFirst Warn.createdAt (Warn.getUserWarns g u st).
Proof.
  intros E. unfold Warn.getUserWarns. rewrite E.
  apply newestFirst_toCached, findAll_ordered.
Qed.

End WarnOrder.

(** C5, evaluated.  Two warns issued to one pair at times 1000 and 2000:
    [getUserWarns] answers from the cache with the older warn first, also
    after [refreshWarnCache]; with the pair absent from the cache the same
    rows come from the store, newest first, as they always do on that
    path. *)
Theorem getUserWarns_order_depends_on_path :
  let g := "120363@g.us" in
  let u := "2547@s.whatsapp.net" in
  let st := (Warn.addWarns g u [("admin", "spam", 1000%Z);
                               ("admin", "links", 2000%Z)] Warn.initial).1 in
  let uncached :=
    {| Warn.WarnSettingsDB := Warn.WarnSettingsDB st;
       Warn.WarnsDB := Warn.WarnsDB st; Warn.nextId := Warn.nextId st;
       Warn.warnCache := ∅ |} in
  map Warn.createdAt (Warn.getUserWarns g u st) = [1000; 2000]%Z /\
  map Warn.createdAt (Warn.getUserWarns g u (Warn.refreshWarnCache st))
    = [1000; 2000]%Z /\
  map Warn.createdAt (Warn.getUserWarns g u uncached) = [2000; 1000]%Z /\
  ~ Sequelize.newestFirst Warn.createdAt (Warn.getUserWarns g u st) /\
  (forall g' u' st',
      Warn.warnCache st' !! Warn.key g' u' = None ->
      Sequelize.newestFirst Warn.createdAt (Warn.getUserWarns g' u' st')).
Proof.
  intros g u st uncached.
  assert (Warn.getUserWarns g u st =
          [ {| Warn.id := 1; Warn.warnedBy := "admin"; Warn.reason := "spam";
               Warn.createdAt := 1000 |};
            {| Warn.id := 2; Warn.warnedBy := "admin"; Warn.reason := "links";
               Warn.createdAt := 2000 |} ]) as E
    by (vm_compute; reflexivity).
  split; [now rewrite E |].
  split; [vm_compute; reflexivity |].
  split; [vm_compute; reflexivity |].
  split; [| exact getUserWarns_store_newest_first].
  rewrite E. intros H. apply StronglySorted_inv in H. destruct H as [_ H].
  apply Forall_inv in H. cbn in H. lia.
Qed.

(** C6, evaluated.  Two groups, each with [auto_reset_days = 7], swept at day
    100; the second group has a warn created on day 90, more than 7 days
    old.  The sweep keeps it: the date object was already moved back 7 days
    for the first group, so the second cutoff is day 86 (and without
    [DataTypes.Op] the sweep stops before deleting anything).  Swept alone,
    the second group loses that warn. *)
Theorem autoReset_cutoff_drifts :
  let now := (100 * Warn.dayMs)%Z in
  let settings g :=
    {| Warn.s_groupJid := g; Warn.s_groupName := None;
       Warn.s_status := Sequelize.On; Warn.s_warn_limit := 3;
       Warn.s_action := Warn.Kick; Warn.s_exempt_admins := true;
       Warn.s_auto_reset_days := 7; Warn.s_updatedAt := 0 |} in
  let old :=
    {| Warn.w_id := 1; Warn.w_groupJid := "222@g.us";
       Warn.w_userJid := "2547@s.whatsapp.net"; Warn.w_warnedBy := "admin";
       Warn.w_reason := "spam"; Warn.w_createdAt := 90 * Warn.dayMs |} in
  let state groups :=
    {| Warn.WarnSettingsDB := groups; Warn.WarnsDB := [old]; Warn.nextId := 2;
       Warn.warnCache := ∅ |} in
  (Warn.w_createdAt old < now - 7 * Warn.dayMs)%Z /\
  (forall hasOp,
      Warn.WarnsDB (Warn.autoResetOldWarns hasOp now
                      (state [settings "111@g.us"; settings "222@g.us"]))
      = [old]) /\
  Warn.WarnsDB (Warn.autoResetOldWarns true now (state [settings "222@g.us"]))
    = [].
Proof.
  intros now settings old state.
  split; [vm_compute; reflexivity |].
  split; [intros [|]; vm_compute; reflexivity | vm_compute; reflexivity].
Qed.

(** The cutoff of the second group is one more step back from the first. *)
Lemma sweep_two (s1 s2 : Warn.WarnSettings) (now : Z) (warns : list Warn.WarnRow) :
  Warn.sweep [s1; s2] now warns =
  Sequelize.destroy
    (fun w => String.eqb (Warn.w_groupJid w) (Warn.s_groupJid s2)
              && (Warn.w_createdAt w <?
                  now - Warn.s_auto_reset_days s1 * Warn.dayMs
                      - Warn.s_auto_reset_days s2 * Warn.dayMs)%Z)
    (Sequelize.destroy
       (fun w => String.eqb (Warn.w_groupJid w) (Warn.s_groupJid s1)
                 && (Warn.w_createdAt w <?
                     now - Warn.s_auto_reset_days s1 * Warn.dayMs)%Z)
       warns).
Proof. reflexivity. Qed.

(** C1, evaluated.  The word is spliced into the pattern as it is, so its
    characters act as pattern syntax.  With the word "a.c" the text "abc"
    is reported although the word does not occur in it; with the word "a$$"
    a text ending in that very word is not reported while a text ending in
    the word "a" is; with the word "+18" the call throws. *)
Theorem strict_splices_word_as_pattern :
  AntiBad.containsBadWord "abc" ["a.c"] "strict" = Js.Returns true /\
  Js.includes "a.c" (Js.toLowerCase "abc") = false /\
  AntiBad.containsBadWord "you are an a$$" ["a$$"] "strict" = Js.Returns false /\
  Js.endsWith " a$$" (Js.toLowerCase "you are an a$$") = true /\
  AntiBad.containsBadWord "give me a" ["a$$"] "strict" = Js.Returns true /\
  Js.includes "a$$" (Js.toLowerCase "give me a") = false /\
  AntiBad.containsBadWord "18+" ["+18"] "strict" = Js.Throws.
Proof. repeat split; vm_compute; reflexivity. Qed.

(** ** The strict match on words without pattern syntax *)

Section StrictPlain.

Import Tokens.

Lemma plain_char_facts (c : ascii) :
  isPlainChar c = true ->
  Ascii.eqb c "\" = false /\ Ascii.eqb c "." = false /\
  Ascii.eqb c "^" = false /\ Ascii.eqb c "$" = false /\
  RegExp.isQuantifier c = false /\ RegExp.isSyntaxChar c = false /\
  RegExp.isWordChar c = true /\ Js.toLowerChar (RegExp.canon c) = c.
Proof.
  destruct c as [[|] [|] [|] [|] [|] [|] [|] [|]]; vm_compute;
    intros H; try discriminate H; repeat split.
Qed.

Lemma lower_canon (c : ascii) :
  Js.toLowerChar c = c -> Js.toLowerChar (RegExp.canon c) = c.
Proof.
  destruct c as [[|] [|] [|] [|] [|] [|] [|] [|]]; vm_compute;
    intros H; try discriminate H; reflexivity.
Qed.

Lemma lower_idem (c : ascii) :
  Js.toLowerChar (Js.toLowerChar c) = Js.toLowerChar c.
Proof. destruct c as [[|] [|] [|] [|] [|] [|] [|] [|]]; reflexivity. Qed.

Lemma allLower_toLowerCase (s : string) : allLower (Js.toLowerCase s) = true.
Proof.
  induction s as [|c s IH]; cbn [Js.toLowerCase allLower]; [reflexivity |].
  now rewrite lower_idem, Ascii.eqb_refl, IH.
Qed.

Lemma allLower_app (a b : string) :
  allLower (a ++ b) = allLower a && allLower b.
Proof.
  induction a as [|c a IH]; cbn [String.append allLower]; [reflexivity |].
  now rewrite IH, andb_assoc.
Qed.

Lemma parse_plain (w : string) (atom : bool) :
  isPlainWord w = true ->
  RegExp.parse atom (w ++ "\b") = RegExp.Pattern (lits w ++ [RegExp.WordB]).
Proof.
  revert atom. induction w as [|c w IH]; intros atom Hw.
  - reflexivity.
  - cbn [isPlainWord] in Hw. apply andb_true_iff in Hw. destruct Hw as [Hc Hw].
    destruct (plain_char_facts c Hc) as (E1 & E2 & E3 & E4 & E5 & E6 & _).
    cbn [String.append RegExp.parse lits app].
    rewrite E1, E2, E3, E4, E5, E6, (IH true Hw). reflexivity.
Qed.

Lemma compile_plain (w : string) :
  isPlainWord w = true ->
  RegExp.compile ("\b" ++ w ++ "\b") =
  RegExp.Pattern (RegExp.WordB :: lits w ++ [RegExp.WordB]).
Proof.
  intros Hw. unfold RegExp.compile.
  change ("\b" ++ w ++ "\b") with (String "\" (String "b" (w ++ "\b"))).
  cbn [RegExp.parse]. cbn [Ascii.eqb Bool.eqb].
  now rewrite (parse_plain w false Hw).
Qed.

Lemma matchAt_lits (w : string) (rest : list RegExp.item)
    (prev : option ascii) (s : string) :
  isPlainWord w = true -> allLower s = true ->
  RegExp.matchAt (lits w ++ rest) prev s = true <->
  exists post, s = w ++ post /\
               RegExp.matchAt rest (lastChar prev w) post = true.
Proof.
  revert prev s. induction w as [|c w IH]; intros prev s Hw Hs.
  - cbn [lits app lastChar String.append]. split.
    + intros H. now exists s.
    + intros [post [-> H]]. exact H.
  - cbn [isPlainWord] in Hw. apply andb_true_iff in Hw. destruct Hw as [Hc Hw].
    destruct (plain_char_facts c Hc) as (_ & _ & _ & _ & _ & _ & _ & Ec).
    cbn [lits app RegExp.matchAt lastChar].
    destruct s as [|d s].
    + split; [discriminate | intros [post [H _]]; discriminate].
    + cbn [allLower] in Hs. apply andb_true_iff in Hs. destruct Hs as [Hd Hs].
      apply Ascii.eqb_eq in Hd. apply lower_canon in Hd.
      rewrite andb_true_iff, Ascii.eqb_eq, (IH (Some d) s Hw Hs). split.
      * intros [E [post [-> H]]].
        assert (c = d) as <- by congruence.
        now exists post.
      * intros [post [E H]]. cbn [String.append] in E.
        injection E as <- ->. split; [reflexivity | now exists post].
Qed.

Lemma searchFrom_spec (p : list RegExp.item) (prev : option ascii) (s : string) :
  RegExp.searchFrom p prev s = true <->
  exists pre rest, s = pre ++ rest /\
                   RegExp.matchAt p (lastChar prev pre) rest = true.
Proof.
  revert prev. induction s as [|d s IH]; intros prev;
    cbn [RegExp.searchFrom]; rewrite orb_true_iff.
  - split.
    + intros [H | H]; [| discriminate]. now exists "", "".
    + intros (pre & rest & E & H). left.
      destruct pre; [| discriminate]. cbn [String.append] in E. now subst rest.
  - rewrite IH. split.
    + intros [H | (pre & rest & -> & H)].
      * now exists "", (String d s).
      * now exists (String d pre), rest.
    + intros (pre & rest & E & H). destruct pre as [|d' pre].
      * left. cbn [String.append] in E. now subst rest.
      * right. cbn [String.append] in E. injection E as <- ->.
        now exists pre, rest.
Qed.

Lemma head_plain (w post : string) :
  plainWord w -> RegExp.isWordAt (RegExp.head (w ++ post)) = true.
Proof.
  intros [Hne Hw]. destruct w as [|c w]; [congruence |].
  cbn [isPlainWord] in Hw. apply andb_true_iff in Hw. destruct Hw as [Hc _].
  cbn [String.append RegExp.head RegExp.isWordAt].
  now destruct (plain_char_facts c Hc) as (_ & _ & _ & _ & _ & _ & E & _).
Qed.

Lemma last_plain (w : string) (prev : option ascii) :
  plainWord w -> RegExp.isWordAt (lastChar prev w) = true.
Proof.
  intros [Hne Hw]. destruct w as [|c w]; [congruence |]. clear Hne.
  revert prev c Hw. induction w as [|d w IH]; intros prev c Hw;
    cbn [isPlainWord] in Hw; apply andb_true_iff in Hw; destruct Hw as [Hc Hw].
  - cbn [lastChar RegExp.isWordAt].
    now destruct (plain_char_facts c Hc) as (_ & _ & _ & _ & _ & _ & E & _).
  - cbn [lastChar]. apply (IH (Some c) d Hw).
Qed.

Lemma test_plain (w t : string) :
  plainWord w -> allLower t = true ->
  RegExp.test (RegExp.WordB :: lits w ++ [RegExp.WordB]) t = true <->
  atTokenBoundary w t.
Proof.
  intros Hp Ht. unfold RegExp.test, atTokenBoundary.
  rewrite searchFrom_spec. split.
  - intros (pre & rest & -> & H).
    rewrite allLower_app in Ht. apply andb_true_iff in Ht. destruct Ht as [_ Hr].
    cbn [RegExp.matchAt] in H. apply andb_true_iff in H. destruct H as [Hb H].
    apply (matchAt_lits w [RegExp.WordB] _ rest (proj2 Hp) Hr) in H.
    destruct H as (post & -> & H).
    cbn [RegExp.matchAt] in H. rewrite andb_true_r in H.
    rewrite (head_plain w post Hp) in Hb. rewrite (last_plain w _ Hp) in H.
    exists pre, post. split; [reflexivity |].
    split.
    + now destruct (RegExp.isWordAt (lastChar None pre)).
    + now destruct (RegExp.isWordAt (RegExp.head post)).
  - intros (pre & post & -> & H1 & H2).
    rewrite allLower_app in Ht. apply andb_true_iff in Ht. destruct Ht as [_ Hr].
    exists pre, (w ++ post). split; [reflexivity |].
    cbn [RegExp.matchAt]. rewrite (head_plain w post Hp), H1. cbn [Bool.eqb negb andb].
    apply (matchAt_lits w [RegExp.WordB] _ (w ++ post) (proj2 Hp) Hr).
    exists post. split; [reflexivity |].
    cbn [RegExp.matchAt]. now rewrite (last_plain w _ Hp), H2.
Qed.

Lemma some_ext_in {A : Type} (f g : A -> Js.outcome bool) (l : list A) :
  (forall x, In x l -> f x = g x) -> Js.some f l = Js.some g l.
Proof.
  induction l as [|x l IH]; intros H; cbn [Js.some]; [reflexivity |].
  rewrite (H x) by now left. rewrite IH; [reflexivity |].
  intros y Hy. apply H. now right.
Qed.

End StrictPlain.

(** X26.  When every listed word is non-empty and
    made of lowercase letters, digits and underscores, [containsBadWord]
    under ['strict'] returns, and returns [true] exactly when the text is
    non-empty and its lower-cased form contains a listed word neither
    preceded nor followed by a word character. *)
Theorem strict_plain_words_at_token_boundary (text : string) (W : list string) :
  Forall Tokens.plainWord W ->
  (AntiBad.containsBadWord text W "strict" = Js.Returns true <->
   text <> "" /\
   exists w, In w W /\ Tokens.atTokenBoundary w (Js.toLowerCase text)) /\
  (exists b, AntiBad.containsBadWord text W "strict" = Js.Returns b).
Proof.
  intros HW. rewrite List.Forall_forall in HW.
  assert (AntiBad.containsBadWord text W "strict" =
          Js.Returns
            (negb (String.eqb text "") &&
             existsb (fun w => RegExp.test
                                 (RegExp.WordB :: Tokens.lits w ++ [RegExp.WordB])
                                 (Js.toLowerCase text)) W)) as E.
  { unfold AntiBad.containsBadWord.
    destruct (String.eqb text ""); [reflexivity |].
    destruct W as [|w0 W0]; [reflexivity |].
    cbn [length Nat.eqb orb negb andb String.eqb Ascii.eqb Bool.eqb].
    rewrite <- some_total. apply some_ext_in. intros w Hw.
    unfold AntiBad.strictTest.
    now rewrite (compile_plain w (proj2 (HW w Hw))). }
  rewrite E. split; [| eauto]. split.
  - intros H. injection H as H. apply andb_true_iff in H. destruct H as [Ht H].
    split; [intros ->; discriminate |].
    apply existsb_exists in H. destruct H as (w & Hw & H).
    exists w. split; [assumption |].
    apply test_plain; [now apply HW | apply allLower_toLowerCase | exact H].
  - intros [Ht (w & Hw & H)]. f_equal. apply andb_true_iff. split.
    + apply String.eqb_neq in Ht. now rewrite Ht.
    + apply existsb_exists. exists w. split; [assumption |].
      apply test_plain; [now apply HW | apply allLower_toLowerCase | exact H].
Qed.

Lemma strict_plain_words_at_token_boundary_witness :
  Forall Tokens.plainWord ["idiot"; "fool"] /\
  exists b,
    AntiBad.containsBadWord "You are a Fool !" ["idiot"; "fool"] "strict"
    = Js.Returns b.
Proof.
  assert (Forall Tokens.plainWord ["idiot"; "fool"]) as H.
  { repeat constructor; discriminate. }
  split; [exact H |].
  exact (proj2 (strict_plain_words_at_token_boundary
                  "You are a Fool !" ["idiot"; "fool"] H)).
Defined.

(** * Further properties of the matchers *)

Section FilterTypes.

Lemma containsBadWord_loose (text : string) (W : list string) :
  AntiBad.containsBadWord text W "loose" =
  Js.Returns (negb (String.eqb text "") &&
              existsb (fun w => Js.includes w (Js.toLowerCase text)) W).
Proof.
  unfold AntiBad.containsBadWord.
  destruct (String.eqb text ""); [reflexivity |].
  destruct W as [|w W]; [reflexivity |].
  cbn [length Nat.eqb orb negb andb String.eqb Ascii.eqb Bool.eqb].
  unfold AntiBad.looseTest. apply some_total.
Qed.

Lemma includes_empty (s : string) : Js.includes "" s = true.
Proof. destruct s; reflexivity. Qed.

Lemma allLower_includes (v t : string) :
  Js.includes v t = true -> Tokens.allLower t = true -> Tokens.allLower v = true.
Proof.
  intros H Ht. apply includes_spec in H. destruct H as (pre & post & ->).
  rewrite !allLower_app in Ht. apply andb_true_iff in Ht. destruct Ht as [_ Ht].
  apply andb_true_iff in Ht. tauto.
Qed.

Lemma allLower_replaceAll (c : ascii) (r w : string) :
  Js.toLowerChar c = c ->
  Tokens.allLower (Js.replaceAll c r w) = true -> Tokens.allLower w = true.
Proof.
  intros Hc. induction w as [|d w IH]; cbn [Js.replaceAll Tokens.allLower].
  - reflexivity.
  - destruct (Ascii.eqb_spec c d) as [<- | Hne].
    + rewrite allLower_app. intros H. apply andb_true_iff in H.
      rewrite Hc, Ascii.eqb_refl. cbn [andb]. apply IH. tauto.
    + cbn [Tokens.allLower]. intros H. apply andb_true_iff in H.
      destruct H as [H1 H2]. rewrite H1. cbn [andb]. now apply IH.
Qed.

Lemma allLower_variant (w v : string) :
  In v (AntiBad.generateLeetVariations w) ->
  Tokens.allLower v = true -> Tokens.allLower w = true.
Proof.
  intros Hin Hv. apply leet_In in Hin.
  destruct Hin as [-> | (c & r & Hc & _ & ->)]; [assumption |].
  apply (allLower_replaceAll c r w); [| assumption].
  cbn [AntiBad.specLeetSubstitutions In] in Hc.
  repeat (destruct Hc as [Hc | Hc]; [inversion Hc; reflexivity |]).
  destruct Hc.
Qed.

Lemma leet_only_self (w : string) :
  Js.includesChar "a" w = false -> Js.includesChar "e" w = false ->
  Js.includesChar "i" w = false -> Js.includesChar "s" w = false ->
  Js.includesChar "o" w = false ->
  AntiBad.generateLeetVariations w = [w].
Proof.
  intros Ha He Hi Hs Ho. unfold AntiBad.generateLeetVariations.
  rewrite Ha, He, Hi, Hs, Ho. reflexivity.
Qed.

Lemma boundary_includes (w t : string) :
  Tokens.atTokenBoundary w t -> Js.includes w t = true.
Proof.
  intros (pre & post & -> & _). apply includes_spec. now exists pre, post.
Qed.

Lemma containsBadWord_strict_plain (text : string) (W : list string) :
  Forall Tokens.plainWord W ->
  AntiBad.containsBadWord text W "strict" =
  Js.Returns
    (negb (String.eqb text "") &&
     existsb (fun w => RegExp.test
                         (RegExp.WordB :: Tokens.lits w ++ [RegExp.WordB])
                         (Js.toLowerCase text)) W).
Proof.
  intros HW. rewrite List.Forall_forall in HW.
  unfold AntiBad.containsBadWord.
  destruct (String.eqb text ""); [reflexivity |].
  destruct W as [|w0 W0]; [reflexivity |].
  cbn [length Nat.eqb orb negb andb String.eqb Ascii.eqb Bool.eqb].
  rewrite <- some_total. apply some_ext_in. intros w Hw.
  unfold AntiBad.strictTest.
  now rewrite (compile_plain w (proj2 (HW w Hw))).
Qed.

Lemma empty_word_matches (text : string) (W : list string) (ft : string) :
  ft <> "strict" -> text <> "" -> In "" W ->
  AntiBad.containsBadWord text W ft = Js.Returns true.
Proof.
  intros Hft Ht Hin. apply String.eqb_neq in Ht.
  destruct (String.eqb_spec ft "loose") as [-> | Hl].
  - rewrite containsBadWord_loose, Ht. f_equal. cbn [negb andb].
    apply existsb_exists. exists "". split; [assumption | apply includes_empty].
  - rewrite containsBadWord_normal, Ht by assumption. f_equal. cbn [negb andb].
    apply existsb_exists. exists "". split; [assumption |].
    apply existsb_exists. exists "". split; [apply leet_self | apply includes_empty].
Qed.

End FilterTypes.

(** X1.  Under ['loose'] a text matches exactly when it is non-empty and its
    lower-cased form contains a listed word as a substring; the call always
    returns. *)
Theorem loose_is_substring (text : string) (W : list string) :
  (AntiBad.containsBadWord text W "loose" = Js.Returns true <->
   text <> "" /\
   exists w pre post, In w W /\ Js.toLowerCase text = pre ++ w ++ post) /\
  (exists b, AntiBad.containsBadWord text W "loose" = Js.Returns b).
Proof.
  rewrite containsBadWord_loose. split; [| eauto]. split.
  - intros H. injection H as H. apply andb_true_iff in H. destruct H as [Ht H].
    split; [intros ->; discriminate |].
    apply existsb_exists in H. destruct H as (w & Hw & H).
    apply includes_spec in H. destruct H as (pre & post & H).
    now exists w, pre, post.
  - intros [Ht (w & pre & post & Hw & H)]. f_equal. apply andb_true_iff. split.
    + apply String.eqb_neq in Ht. now rewrite Ht.
    + apply existsb_exists. exists w. split; [assumption |].
      apply includes_spec. now exists pre, post.
Qed.

(** X2.  Whatever ['loose'] reports, ['normal'] reports as well: the word
    itself is among its variants. *)
Theorem loose_match_is_normal_match (text : string) (W : list string) :
  AntiBad.containsBadWord text W "loose" = Js.Returns true ->
  AntiBad.containsBadWord text W "normal" = Js.Returns true.
Proof.
  rewrite containsBadWord_loose, containsBadWord_normal by discriminate.
  intros H. injection H as H. f_equal.
  apply andb_true_iff in H. destruct H as [Ht H]. rewrite Ht. cbn [andb].
  apply existsb_exists in H. destruct H as (w & Hw & H).
  apply existsb_exists. exists w. split; [assumption |].
  apply existsb_exists. exists w. split; [apply leet_self | assumption].
Qed.

Lemma loose_match_is_normal_match_witness :
  AntiBad.containsBadWord "Foolish" ["fool"] "loose" = Js.Returns true /\
  AntiBad.containsBadWord "Foolish" ["fool"] "normal" = Js.Returns true.
Proof.
  assert (AntiBad.containsBadWord "Foolish" ["fool"] "loose" = Js.Returns true)
    as H by reflexivity.
  split; [exact H |].
  exact (loose_match_is_normal_match "Foolish" ["fool"] H).
Defined.

(** X3.  For words made of lowercase letters, digits and underscores, what
    ['strict'] reports ['loose'] reports as well. *)
Theorem strict_match_is_loose_match (text : string) (W : list string) :
  Forall Tokens.plainWord W ->
  AntiBad.containsBadWord text W "strict" = Js.Returns true ->
  AntiBad.containsBadWord text W "loose" = Js.Returns true.
Proof.
  intros HW. rewrite (containsBadWord_strict_plain text W HW), containsBadWord_loose.
  intros H. injection H as H. f_equal.
  apply andb_true_iff in H. destruct H as [Ht H]. rewrite Ht. cbn [andb].
  apply existsb_exists in H. destruct H as (w & Hw & H).
  apply existsb_exists. exists w. split; [assumption |].
  rewrite List.Forall_forall in HW.
  apply test_plain in H; [| now apply HW | apply allLower_toLowerCase].
  now apply boundary_includes.
Qed.

Lemma strict_match_is_loose_match_witness :
  Forall Tokens.plainWord ["idiot"; "fool"] /\
  AntiBad.containsBadWord "a Fool !" ["idiot"; "fool"] "strict" = Js.Returns true /\
  AntiBad.containsBadWord "a Fool !" ["idiot"; "fool"] "loose" = Js.Returns true.
Proof.
  assert (Forall Tokens.plainWord ["idiot"; "fool"]) as HW.
  { repeat constructor; discriminate. }
  assert (AntiBad.containsBadWord "a Fool !" ["idiot"; "fool"] "strict"
          = Js.Returns true) as H by (vm_compute; reflexivity).
  split; [exact HW |]. split; [exact H |].
  exact (strict_match_is_loose_match "a Fool !" ["idiot"; "fool"] HW H).
Defined.

(** X4.  When no listed word contains one of the letters a, e, i, s, o,
    ['normal'] and ['loose'] give the same answer on every text. *)
Theorem normal_is_loose_without_leet_letters (text : string) (W : list string) :
  Forall (fun w => forall c, In c ["a"; "e"; "i"; "s"; "o"]%char ->
                             Js.includesChar c w = false) W ->
  AntiBad.containsBadWord text W "normal" = AntiBad.containsBadWord text W "loose".
Proof.
  intros HW. rewrite containsBadWord_loose, containsBadWord_normal by discriminate.
  f_equal. f_equal. rewrite List.Forall_forall in HW.
  induction W as [|w W IH]; cbn [existsb]; [reflexivity |].
  rewrite (leet_only_self w); try (apply (HW w); cbn; tauto).
  cbn [existsb]. rewrite orb_false_r.
  f_equal. apply IH. intros x Hx. apply HW. now right.
Qed.

Lemma normal_is_loose_without_leet_letters_witness :
  AntiBad.containsBadWord "what a Punk" ["punk"; "dummy"] "normal"
  = AntiBad.containsBadWord "what a Punk" ["punk"; "dummy"] "loose".
Proof.
  apply normal_is_loose_without_leet_letters.
  repeat constructor;
    intros c Hc; cbn [In] in Hc;
    repeat (destruct Hc as [<- | Hc]; [reflexivity |]); destruct Hc.
Defined.

(** X5.  A listed word containing an upper-case letter never matches under
    ['loose'] or ['normal'] (nor under any filter type other than
    ['strict']): the text is lower-cased, the word is not. *)
Theorem uppercase_word_never_matches (text : string) (W : list string)
    (ft : string) :
  ft <> "strict" ->
  Forall (fun w => Tokens.allLower w = false) W ->
  AntiBad.containsBadWord text W ft = Js.Returns false.
Proof.
  intros Hft HW. rewrite List.Forall_forall in HW.
  pose proof (allLower_toLowerCase text) as Ht.
  destruct (String.eqb_spec ft "loose") as [-> | Hl].
  - rewrite containsBadWord_loose. f_equal. apply andb_false_iff. right.
    apply not_true_is_false. intros H.
    apply existsb_exists in H. destruct H as (w & Hw & H).
    apply allLower_includes in H; [| assumption].
    rewrite (HW w Hw) in H. discriminate.
  - rewrite containsBadWord_normal by assumption.
    f_equal. apply andb_false_iff. right.
    apply not_true_is_false. intros H.
    apply existsb_exists in H. destruct H as (w & Hw & H).
    apply existsb_exists in H. destruct H as (v & Hv & H).
    apply allLower_includes in H; [| assumption].
    apply (allLower_variant w v Hv) in H.
    rewrite (HW w Hw) in H. discriminate.
Qed.

Lemma uppercase_word_never_matches_witness :
  AntiBad.containsBadWord "you Fool" ["Fool"] "normal" = Js.Returns false.
Proof.
  apply uppercase_word_never_matches.
  - discriminate.
  - repeat constructor.
Defined.

(** X6.  The empty word matches every non-empty text under every filter
    type other than ['strict'], whatever else the list holds. *)
Theorem empty_word_matches_everything (text : string) (W : list string)
    (ft : string) :
  ft <> "strict" -> text <> "" -> In "" W ->
  AntiBad.containsBadWord text W ft = Js.Returns true.
Proof. exact (empty_word_matches text W ft). Qed.

Lemma empty_word_matches_everything_witness :
  AntiBad.containsBadWord "hello" ["fool"; ""] "loose" = Js.Returns true.
Proof.
  apply empty_word_matches_everything.
  - discriminate.
  - discriminate.
  - right. now left.
Defined.

(** X7.  For trigger words made of lowercase letters, digits and
    underscores, [containsTriggerWord] is substring containment: it answers
    as [containsBadWord] does under ['loose'] (the word-boundary test adds
    nothing to the substring test that follows it). *)
Theorem trigger_match_is_substring (text : string) (W : list string) :
  Forall (fun w => Tokens.isPlainWord w = true) W ->
  AutoBlock.containsTriggerWord text W = AntiBad.containsBadWord text W "loose".
Proof.
  intros HW. rewrite List.Forall_forall in HW.
  rewrite containsBadWord_loose. unfold AutoBlock.containsTriggerWord.
  destruct (String.eqb text ""); [reflexivity |].
  destruct W as [|w0 W0]; [reflexivity |].
  cbn [length Nat.eqb orb negb andb].
  rewrite <- some_total. apply some_ext_in. intros w Hw.
  unfold AutoBlock.triggerTest. rewrite (compile_plain w (HW w Hw)).
  destruct (RegExp.test _ _) eqn:E; [| now destruct (Js.includes _ _)].
  destruct (String.eqb_spec w "") as [-> | Hne].
  - now rewrite includes_empty.
  - apply test_plain in E;
      [| split; [assumption | now apply HW] | apply allLower_toLowerCase].
    now rewrite (boundary_includes _ _ E).
Qed.

Lemma trigger_match_is_substring_witness :
  AutoBlock.containsTriggerWord "Scammers here" ["scam"]
  = AntiBad.containsBadWord "Scammers here" ["scam"] "loose".
Proof.
  apply trigger_match_is_substring. repeat constructor.
Defined.

(** * The bad-word list *)

Section Normalization.

Lemma space_lower (c : ascii) : Js.isSpace (Js.toLowerChar c) = Js.isSpace c.
Proof. destruct c as [[|] [|] [|] [|] [|] [|] [|] [|]]; reflexivity. Qed.

Lemma toLowerCase_idem (s : string) :
  Js.toLowerCase (Js.toLowerCase s) = Js.toLowerCase s.
Proof.
  induction s as [|c s IH]; cbn [Js.toLowerCase]; [reflexivity |].
  now rewrite lower_idem, IH.
Qed.

Lemma toLowerCase_empty (s : string) :
  String.eqb (Js.toLowerCase s) "" = String.eqb s "".
Proof. destruct s; reflexivity. Qed.

Lemma toLowerCase_trimStart (s : string) :
  Js.toLowerCase (Js.trimStart s) = Js.trimStart (Js.toLowerCase s).
Proof.
  induction s as [|c s IH]; cbn [Js.toLowerCase Js.trimStart]; [reflexivity |].
  rewrite space_lower. destruct (Js.isSpace c); [exact IH | reflexivity].
Qed.

Lemma toLowerCase_trimEnd (s : string) :
  Js.toLowerCase (Js.trimEnd s) = Js.trimEnd (Js.toLowerCase s).
Proof.
  induction s as [|c s IH]; cbn [Js.toLowerCase Js.trimEnd]; [reflexivity |].
  cbv zeta. rewrite space_lower, <- IH, toLowerCase_empty.
  destruct (Js.isSpace c && String.eqb (Js.trimEnd s) ""); reflexivity.
Qed.

Lemma trimStart_idem (s : string) :
  Js.trimStart (Js.trimStart s) = Js.trimStart s.
Proof.
  induction s as [|c s IH]; cbn [Js.trimStart]; [reflexivity |].
  destruct (Js.isSpace c) eqn:E; [exact IH |].
  cbn [Js.trimStart]. now rewrite E.
Qed.

Lemma trimEnd_idem (s : string) : Js.trimEnd (Js.trimEnd s) = Js.trimEnd s.
Proof.
  induction s as [|c s IH]; cbn [Js.trimEnd]; [reflexivity |]. cbv zeta.
  destruct (Js.isSpace c && String.eqb (Js.trimEnd s) "") eqn:E; [reflexivity |].
  cbn [Js.trimEnd]. cbv zeta. now rewrite IH, E.
Qed.

Lemma trimStart_trimEnd (s : string) :
  Js.trimStart s = s -> Js.trimStart (Js.trimEnd s) = Js.trimEnd s.
Proof.
  destruct s as [|c s]; [reflexivity |]. cbn [Js.trimStart Js.trimEnd]. cbv zeta.
  destruct (Js.isSpace c) eqn:E.
  - intros H. exfalso.
    assert (String.length (Js.trimStart s) <= String.length s)%nat as Hlen.
    { clear. induction s as [|d s IH]; cbn [Js.trimStart String.length]; [lia |].
      destruct (Js.isSpace d); cbn [String.length]; lia. }
    rewrite H in Hlen. cbn [String.length] in Hlen. lia.
  - intros _. cbn [andb Js.trimStart]. now rewrite E.
Qed.

Lemma trim_idem (s : string) : Js.trim (Js.trim s) = Js.trim s.
Proof.
  unfold Js.trim.
  rewrite (trimStart_trimEnd (Js.trimStart s) (trimStart_idem s)).
  apply trimEnd_idem.
Qed.

Lemma normalize_isNormalized (w : string) :
  AntiBad.isNormalized (AntiBad.normalize w).
Proof.
  unfold AntiBad.isNormalized, AntiBad.normalize, Js.trim. split.
  - now rewrite toLowerCase_trimEnd, toLowerCase_trimStart, toLowerCase_idem.
  - apply trim_idem.
Qed.

Lemma normalize_idem (w : string) :
  AntiBad.normalize (AntiBad.normalize w) = AntiBad.normalize w.
Proof.
  destruct (normalize_isNormalized w) as [H1 H2].
  unfold AntiBad.normalize at 1. now rewrite H1.
Qed.

Lemma normalize_blank (w : string) :
  AntiBad.allSpaces w = true -> AntiBad.normalize w = "".
Proof.
  unfold AntiBad.normalize, Js.trim. rewrite <- toLowerCase_trimStart.
  intros H. assert (Js.trimStart w = "") as ->; [| reflexivity].
  induction w as [|c w IH]; [reflexivity |].
  cbn [AntiBad.allSpaces] in H. apply andb_true_iff in H. destruct H as [Hc H].
  cbn [Js.trimStart]. rewrite Hc. now apply IH.
Qed.

End Normalization.

Section WordList.

Implicit Types (db : AntiBad.BadWords) (g w : string).

Lemma insertAsc_perm {A : Type} (leb : A -> A -> bool) (x : A) (l : list A) :
  Permutation (Sequelize.insertAsc leb x l) (x :: l).
Proof.
  induction l as [|y l IH]; cbn [Sequelize.insertAsc]; [reflexivity |].
  destruct (leb x y); [reflexivity |]. rewrite IH. apply perm_swap.
Qed.

Lemma orderAsc_perm {A : Type} (leb : A -> A -> bool) (l : list A) :
  Permutation (Sequelize.orderAsc leb l) l.
Proof.
  induction l as [|x l IH]; cbn; [reflexivity |].
  fold (Sequelize.orderAsc leb l). rewrite insertAsc_perm. now constructor.
Qed.

Lemma wordsOf_perm g db :
  Permutation (AntiBad.wordsOf g db)
              (map AntiBad.bw_word
                   (List.filter (AntiBad.inGroup g) (AntiBad.BadWordsDB db))).
Proof.
  unfold AntiBad.wordsOf, AntiBad.getBadWords. rewrite map_map. cbn [AntiBad.word].
  apply Permutation_map, orderAsc_perm.
Qed.

Lemma wordsOf_In g db w :
  In w (AntiBad.wordsOf g db) <->
  exists r, In r (AntiBad.BadWordsDB db) /\
            AntiBad.bw_groupJid r = g /\ AntiBad.bw_word r = w.
Proof.
  split.
  - intros H. apply (Permutation_in _ (wordsOf_perm g db)) in H.
    apply in_map_iff in H. destruct H as (r & <- & H).
    apply filter_In in H. destruct H as [H Hg].
    apply String.eqb_eq in Hg. now exists r.
  - intros (r & Hr & Hg & <-).
    apply (Permutation_in _ (Permutation_sym (wordsOf_perm g db))).
    apply in_map, filter_In. split; [assumption |].
    unfold AntiBad.inGroup. now apply String.eqb_eq.
Qed.

Lemma sameWord_spec g w (r : AntiBad.BadWordRow) :
  AntiBad.sameWord g w r = true <->
  (AntiBad.bw_groupJid r, AntiBad.bw_word r) = (g, w).
Proof.
  unfold AntiBad.sameWord. rewrite andb_true_iff, !String.eqb_eq.
  split; [intros [-> ->]; reflexivity | intros H; now injection H].
Qed.

Lemma find_sameWord_None g w (rows : list AntiBad.BadWordRow) :
  List.find (AntiBad.sameWord g w) rows = None <->
  ~ In (g, w) (map (fun r => (AntiBad.bw_groupJid r, AntiBad.bw_word r)) rows).
Proof.
  induction rows as [|r rows IH]; cbn [List.find map In]; [tauto |].
  destruct (AntiBad.sameWord g w r) eqn:E.
  - apply sameWord_spec in E. split; [discriminate | tauto].
  - rewrite IH. split; [| tauto]. intros H [H' | H']; [| tauto].
    apply sameWord_spec in H'. congruence.
Qed.

Lemma NoDup_map_filter {A B : Type} (f : A -> B) (p : A -> bool) (l : list A) :
  List.NoDup (map f l) -> List.NoDup (map f (List.filter p l)).
Proof.
  induction l as [|x l IH]; cbn [map List.filter]; [trivial |].
  intros H. apply NoDup_cons_iff in H. destruct H as [Hx H].
  destruct (p x); [| now apply IH]. cbn [map].
  apply NoDup_cons_iff. split; [| now apply IH].
  intros Hin. apply Hx. apply in_map_iff in Hin.
  destruct Hin as (y & E & Hy). apply filter_In in Hy.
  apply in_map_iff. exists y. tauto.
Qed.

Lemma NoDup_snoc {A : Type} (x : A) (l : list A) :
  List.NoDup l -> ~ In x l -> List.NoDup (l ++ [x]).
Proof.
  induction l as [|y l IH]; cbn [app]; intros H Hx.
  - repeat constructor. intros [].
  - apply NoDup_cons_iff in H. destruct H as [Hy H].
    apply NoDup_cons_iff. split.
    + intros Hin. apply in_app_or in Hin. destruct Hin as [Hin | [<- | []]].
      * contradiction.
      * apply Hx. now left.
    + apply IH; [assumption |]. intros Hin. apply Hx. now right.
Qed.

Lemma Forall_filter_keep {A : Type} (P : A -> Prop) (p : A -> bool) (l : list A) :
  Forall P l -> Forall P (List.filter p l).
Proof.
  rewrite !List.Forall_forall. intros H x Hx. apply filter_In in Hx. apply H, Hx.
Qed.

Lemma NoDup_words_in_group g (rows : list AntiBad.BadWordRow) :
  List.NoDup (map (fun r => (AntiBad.bw_groupJid r, AntiBad.bw_word r)) rows) ->
  List.NoDup (map AntiBad.bw_word (List.filter (AntiBad.inGroup g) rows)).
Proof.
  induction rows as [|r rows IH]; cbn [List.filter map]; [constructor |].
  intros H. apply NoDup_cons_iff in H. destruct H as [Hr H].
  destruct (AntiBad.inGroup g r) eqn:Er; [| now apply IH].
  cbn [map]. apply NoDup_cons_iff. split; [| now apply IH].
  intros Hin. apply Hr. apply in_map_iff in Hin.
  destruct Hin as (r' & Ew & Hr'). apply filter_In in Hr'.
  destruct Hr' as [Hr' Eg]. apply in_map_iff. exists r'.
  split; [| assumption].
  unfold AntiBad.inGroup in Er, Eg. apply String.eqb_eq in Er, Eg. congruence.
Qed.

Lemma addBadWord_found g w (userId : string) (now : Z) db :
  exists r,
    List.find (AntiBad.sameWord g (AntiBad.normalize w))
              (AntiBad.BadWordsDB (AntiBad.addBadWord g w userId now db).1)
    = Some r.
Proof.
  unfold AntiBad.addBadWord.
  destruct (List.find _ (AntiBad.BadWordsDB db)) as [r|] eqn:E; cbn [fst].
  - eauto.
  - cbn [AntiBad.BadWordsDB]. rewrite (find_app_None _ _ _ E).
    cbn [List.find]. unfold AntiBad.sameWord at 1. cbn.
    rewrite !String.eqb_refl. cbn. eauto.
Qed.

Lemma addBadWord_lists_word g w (userId : string) (now : Z) db :
  In (AntiBad.normalize w)
     (AntiBad.wordsOf g (AntiBad.addBadWord g w userId now db).1).
Proof.
  destruct (addBadWord_found g w userId now db) as [row Hrow].
  pose proof (find_some _ _ Hrow) as [Hin Hsame].
  apply sameWord_spec in Hsame. injection Hsame as Hg Hw.
  apply wordsOf_In. now exists row.
Qed.

End WordList.

(** X8.  The bad-word table stays well formed: if no group holds a word
    twice and every stored word is lower-cased and trimmed, the same is true
    after [addBadWord], [removeBadWord] and [clearAllBadWords]; the list
    [getBadWords] hands out then has no repeated word and only words in
    that normal form. *)
Theorem bad_word_table_well_formed (db : AntiBad.BadWords) (g w userId : string)
    (now : Z) :
  AntiBad.wordsWellFormed db ->
  AntiBad.wordsWellFormed (AntiBad.addBadWord g w userId now db).1 /\
  AntiBad.wordsWellFormed (AntiBad.removeBadWord g w db).1 /\
  AntiBad.wordsWellFormed (AntiBad.clearAllBadWords g db).1 /\
  List.NoDup (AntiBad.wordsOf g db) /\
  Forall AntiBad.isNormalized (AntiBad.wordsOf g db).
Proof.
  intros [Hnd Hnorm]. split; [| split; [| split; [| split]]].
  - unfold AntiBad.addBadWord.
    destruct (List.find _ (AntiBad.BadWordsDB db)) eqn:E; cbn [fst].
    + now split.
    + apply find_sameWord_None in E. split; cbn [AntiBad.BadWordsDB].
      * rewrite map_app. cbn [map AntiBad.bw_groupJid AntiBad.bw_word].
        now apply NoDup_snoc.
      * apply Forall_app. split; [assumption |].
        repeat constructor; apply normalize_isNormalized.
  - split; cbn [fst AntiBad.removeBadWord AntiBad.BadWordsDB];
      unfold Sequelize.destroy.
    + now apply NoDup_map_filter.
    + now apply Forall_filter_keep.
  - split; cbn [fst AntiBad.clearAllBadWords AntiBad.BadWordsDB];
      unfold Sequelize.destroy.
    + now apply NoDup_map_filter.
    + now apply Forall_filter_keep.
  - apply (Permutation_NoDup (Permutation_sym (wordsOf_perm g db))).
    now apply NoDup_words_in_group.
  - apply Forall_forall. intros x Hx. apply list_elem_of_In, wordsOf_In in Hx.
    destruct Hx as (r & Hr & _ & <-).
    rewrite List.Forall_forall in Hnorm. now apply Hnorm.
Qed.

Lemma bad_word_table_well_formed_witness :
  AntiBad.wordsWellFormed
    (AntiBad.addBadWord "120363@g.us" "  FOOL " "admin" 1000
       {| AntiBad.BadWordsDB := []; AntiBad.nextWordId := 1 |}).1.
Proof.
  refine (proj1 (bad_word_table_well_formed
                   {| AntiBad.BadWordsDB := []; AntiBad.nextWordId := 1 |}
                   "120363@g.us" "  FOOL " "admin" 1000 _)).
  split; constructor.
Defined.

(** X9.  Once a word has been offered to [addBadWord] for a group, offering
    it again, in any letter case and with any surrounding white space, is
    refused with "Word already in list" and leaves the table as it is. *)
Theorem add_bad_word_twice (g w w' userId userId' : string) (now now' : Z)
    (db : AntiBad.BadWords) :
  AntiBad.normalize w' = AntiBad.normalize w ->
  let db1 := (AntiBad.addBadWord g w userId now db).1 in
  AntiBad.addBadWord g w' userId' now' db1 = (db1, AntiBad.WordAlreadyInList).
Proof.
  intros E db1. destruct (addBadWord_found g w userId now db) as [r Hr].
  fold db1 in Hr. unfold AntiBad.addBadWord at 1. now rewrite E, Hr.
Qed.

Lemma add_bad_word_twice_witness :
  AntiBad.normalize "  Fool" = AntiBad.normalize "FOOL " /\
  (AntiBad.addBadWord "120363@g.us" "  Fool" "mod" 2000
     (AntiBad.addBadWord "120363@g.us" "FOOL " "admin" 1000
        {| AntiBad.BadWordsDB := []; AntiBad.nextWordId := 1 |}).1).2
  = AntiBad.WordAlreadyInList.
Proof.
  assert (AntiBad.normalize "  Fool" = AntiBad.normalize "FOOL ") as E
    by reflexivity.
  split; [exact E |].
  pose proof (add_bad_word_twice "120363@g.us" "FOOL " "  Fool" "admin" "mod"
                1000 2000
                {| AntiBad.BadWordsDB := []; AntiBad.nextWordId := 1 |} E) as H.
  cbv zeta in H. now rewrite H.
Defined.

(** X10.  After [addBadWord] the normal form of the word is in the group's
    list.  [removeBadWord], given the word in any letter case and with any
    surrounding white space, then answers [true] and the word is gone from
    the list; the lists of the other groups are as they were before the two
    calls. *)
Theorem add_then_remove_bad_word (g w w' userId : string) (now : Z)
    (db : AntiBad.BadWords) :
  AntiBad.normalize w' = AntiBad.normalize w ->
  let db1 := (AntiBad.addBadWord g w userId now db).1 in
  let r := AntiBad.removeBadWord g w' db1 in
  In (AntiBad.normalize w) (AntiBad.wordsOf g db1) /\
  r.2 = true /\
  ~ In (AntiBad.normalize w) (AntiBad.wordsOf g r.1) /\
  (forall g', g' <> g ->
              AntiBad.getBadWords g' db1 = AntiBad.getBadWords g' db /\
              AntiBad.getBadWords g' r.1 = AntiBad.getBadWords g' db).
Proof.
  intros E db1 r.
  destruct (addBadWord_found g w userId now db) as [row Hrow]. fold db1 in Hrow.
  pose proof (find_some _ _ Hrow) as [Hin Hsame].
  apply sameWord_spec in Hsame. injection Hsame as Hg Hw.
  assert (forall g' (rows : list AntiBad.BadWordRow), g' <> g ->
            List.filter (AntiBad.inGroup g')
              (Sequelize.destroy (AntiBad.sameWord g (AntiBad.normalize w')) rows)
            = List.filter (AntiBad.inGroup g') rows) as Hother.
  { intros g' rows Hne. unfold Sequelize.destroy.
    induction rows as [|x rows IH]; cbn [List.filter]; [reflexivity |].
    destruct (AntiBad.sameWord g (AntiBad.normalize w') x) eqn:Ex; cbn [negb].
    - apply sameWord_spec in Ex. injection Ex as Ex _.
      unfold AntiBad.inGroup at 2. apply String.eqb_neq in Hne.
      rewrite Ex, String.eqb_sym, Hne. exact IH.
    - cbn [List.filter]. now rewrite IH. }
  split; [| split; [| split]].
  - apply wordsOf_In. now exists row.
  - subst r. unfold AntiBad.removeBadWord. cbn [snd]. rewrite E.
    apply Nat.ltb_lt. unfold Sequelize.count.
    apply (In_length_pos row). apply filter_In. split; [assumption |].
    now apply sameWord_spec; rewrite Hg, Hw.
  - intros H. apply wordsOf_In in H. destruct H as (x & Hx & Hxg & Hxw).
    subst r. cbn [fst AntiBad.removeBadWord AntiBad.BadWordsDB] in Hx.
    unfold Sequelize.destroy in Hx. apply filter_In in Hx. destruct Hx as [_ Hx].
    rewrite E in Hx. apply negb_true_iff in Hx.
    assert (AntiBad.sameWord g (AntiBad.normalize w) x = true) as Hx'
      by (apply sameWord_spec; now rewrite Hxg, Hxw).
    congruence.
  - intros g' Hne.
    assert (AntiBad.getBadWords g' db1 = AntiBad.getBadWords g' db) as H1.
    { subst db1. unfold AntiBad.addBadWord, AntiBad.getBadWords.
      destruct (List.find _ (AntiBad.BadWordsDB db)); cbn [fst]; [reflexivity |].
      cbn [AntiBad.BadWordsDB]. rewrite List.filter_app. cbn [List.filter].
      unfold AntiBad.inGroup at 2. cbn [AntiBad.bw_groupJid].
      apply String.eqb_neq in Hne. rewrite String.eqb_sym, Hne.
      now rewrite app_nil_r. }
    split; [exact H1 |]. rewrite <- H1. subst r.
    unfold AntiBad.getBadWords, AntiBad.removeBadWord.
    cbn [fst AntiBad.BadWordsDB]. now rewrite Hother.
Qed.

Lemma add_then_remove_bad_word_witness :
  AntiBad.normalize "fool" = AntiBad.normalize " Fool " /\
  (AntiBad.removeBadWord "120363@g.us" "fool"
     (AntiBad.addBadWord "120363@g.us" " Fool " "admin" 1000
        {| AntiBad.BadWordsDB := []; AntiBad.nextWordId := 1 |}).1).2 = true.
Proof.
  assert (AntiBad.normalize "fool" = AntiBad.normalize " Fool ") as E
    by reflexivity.
  split; [exact E |].
  exact (proj1 (proj2 (add_then_remove_bad_word "120363@g.us" " Fool " "fool"
                         "admin" 1000
                         {| AntiBad.BadWordsDB := []; AntiBad.nextWordId := 1 |}
                         E))).
Defined.

(** X11.  [addBadWord] does not refuse a word made of white space only: its
    normal form, the empty word, enters the group's list, and from then on
    every non-empty text matches that list under every filter type other
    than ['strict']. *)
Theorem blank_bad_word_matches_all (g w userId : string) (now : Z)
    (db : AntiBad.BadWords) (text ft : string) :
  AntiBad.allSpaces w = true -> text <> "" -> ft <> "strict" ->
  let db1 := (AntiBad.addBadWord g w userId now db).1 in
  In "" (AntiBad.wordsOf g db1) /\
  AntiBad.containsBadWord text (AntiBad.wordsOf g db1) ft = Js.Returns true.
Proof.
  intros Hw Ht Hft db1.
  assert (In "" (AntiBad.wordsOf g db1)) as Hin.
  { rewrite <- (normalize_blank w Hw). apply addBadWord_lists_word. }
  split; [exact Hin |]. now apply empty_word_matches.
Qed.

Lemma blank_bad_word_matches_all_witness :
  AntiBad.containsBadWord "hello there"
    (AntiBad.wordsOf "120363@g.us"
       (AntiBad.addBadWord "120363@g.us" "   " "admin" 1000
          {| AntiBad.BadWordsDB := []; AntiBad.nextWordId := 1 |}).1)
    "normal" = Js.Returns true.
Proof.
  refine (proj2 (blank_bad_word_matches_all "120363@g.us" "   " "admin" 1000
                   {| AntiBad.BadWordsDB := []; AntiBad.nextWordId := 1 |}
                   "hello there" "normal" _ _ _)).
  - reflexivity.
  - discriminate.
  - discriminate.
Defined.

(** * Further properties of the counters and of the rate window *)

Section Counters.

Lemma startsWith_key (g u : string) :
  Js.startsWith (g ++ ":") (AntiLink.key g u) = true.
Proof.
  apply startsWith_spec. exists u. unfold AntiLink.key.
  now rewrite append_assoc.
Qed.

Lemma deletePrefixed_group {V : Type} (g u : string) (m : gmap string V) :
  AntiLink.deletePrefixed (g ++ ":") m !! AntiLink.key g u = None.
Proof. now rewrite deletePrefixed_lookup, startsWith_key. Qed.

Lemma increment_get (g u : string) (m : gmap string nat) :
  AntiLink.getWarnCount g u (AntiLink.incrementWarnCount g u m).1
  = S (AntiLink.getWarnCount g u m) /\
  (AntiLink.incrementWarnCount g u m).2 = S (AntiLink.getWarnCount g u m).
Proof.
  unfold AntiLink.incrementWarnCount. cbn [fst snd].
  unfold AntiLink.getWarnCount at 1. rewrite lookup_insert_eq. cbn.
  split; lia.
Qed.

End Counters.

(** X12.  [n] successive calls of [incrementWarnCount] for a pair whose
    count is [c] return [c+1], ..., [c+n] and leave the count at [c+n];
    [resetWarnCount] then brings it back to 0. *)
Theorem warn_counter_counts (n : nat) (g u : string) (warnCounts : gmap string nat) :
  let c := AntiLink.getWarnCount g u warnCounts in
  let r := AntiLink.incrementTimes n g u warnCounts in
  r.2 = List.map (fun k => (c + S k)%nat) (List.seq 0 n) /\
  AntiLink.getWarnCount g u r.1 = (c + n)%nat /\
  AntiLink.getWarnCount g u (AntiLink.resetWarnCount g u r.1) = 0%nat.
Proof.
  cbv zeta. split; [| split].
  - revert warnCounts. induction n as [|n IH]; intros m;
      cbn [AntiLink.incrementTimes fst snd List.seq List.map]; [reflexivity |].
    destruct (increment_get g u m) as [Hg Hr].
    rewrite Hr, IH, Hg. f_equal; [lia |].
    rewrite <- seq_shift, List.map_map. apply List.map_ext. intros k. lia.
  - revert warnCounts. induction n as [|n IH]; intros m;
      cbn [AntiLink.incrementTimes fst]; [lia |].
    rewrite IH. destruct (increment_get g u m) as [-> _]. lia.
  - unfold AntiLink.resetWarnCount, AntiLink.getWarnCount.
    now rewrite lookup_delete_eq.
Qed.

(** X13.  Clearing a group by key prefix leaves no count and no timestamp
    for any user of the group: this holds for [clearAllWarns] of
    antilink.js, for [clearAllWarns] of groupevents.js on both of its maps,
    and for [clearAllGroupMessages]; entries whose key does not start with
    the group id and a colon are kept. *)
Theorem group_clear_wipes_group (g u : string)
    (warnCounts demoteCounts : gmap string nat)
    (userMessages : gmap string (list Z)) :
  AntiLink.getWarnCount g u (AntiLink.clearAllWarns g warnCounts) = 0%nat /\
  GroupEvents.getAntiPromoteWarnCount g u
    (GroupEvents.clearAllWarns g (warnCounts, demoteCounts)).1 = 0%nat /\
  GroupEvents.getAntiDemoteWarnCount g u
    (GroupEvents.clearAllWarns g (warnCounts, demoteCounts)).2 = 0%nat /\
  AntiSpam.timestampsOf g u (AntiSpam.clearAllGroupMessages g userMessages) = [] /\
  (forall w now,
      (AntiSpam.getUserMessageCount g u w now
         (AntiSpam.clearAllGroupMessages g userMessages)).2 = 0%nat) /\
  (forall k, Js.startsWith (g ++ ":") k = false ->
             AntiLink.clearAllWarns g warnCounts !! k = warnCounts !! k /\
             AntiSpam.clearAllGroupMessages g userMessages !! k
             = userMessages !! k).
Proof.
  split; [| split; [| split; [| split; [| split]]]].
  - unfold AntiLink.getWarnCount, AntiLink.clearAllWarns.
    now rewrite deletePrefixed_group.
  - unfold GroupEvents.getAntiPromoteWarnCount, AntiLink.getWarnCount,
      GroupEvents.clearAllWarns. cbn [fst]. now rewrite deletePrefixed_group.
  - unfold GroupEvents.getAntiDemoteWarnCount, AntiLink.getWarnCount,
      GroupEvents.clearAllWarns. cbn [snd]. now rewrite deletePrefixed_group.
  - unfold AntiSpam.timestampsOf, AntiSpam.clearAllGroupMessages, AntiSpam.key.
    now rewrite deletePrefixed_group.
  - intros w now. unfold AntiSpam.getUserMessageCount,
      AntiSpam.clearAllGroupMessages, AntiSpam.key.
    now rewrite deletePrefixed_group.
  - intros k Hk. unfold AntiLink.clearAllWarns, AntiSpam.clearAllGroupMessages.
    rewrite !deletePrefixed_lookup, Hk. now split.
Qed.

Section RateWindowMore.

Implicit Types (m : gmap string (list Z)) (g u : string).

Lemma filter_idem {A : Type} (f : A -> bool) (l : list A) :
  List.filter f (List.filter f l) = List.filter f l.
Proof.
  induction l as [|x l IH]; cbn [List.filter]; [reflexivity |].
  destruct (f x) eqn:E; [| exact IH]. cbn [List.filter]. now rewrite E, IH.
Qed.

Lemma filter_all {A : Type} (f : A -> bool) (l : list A) :
  (forall x, In x l -> f x = true) -> List.filter f l = l.
Proof.
  induction l as [|x l IH]; cbn [List.filter]; intros H; [reflexivity |].
  rewrite (H x) by now left. f_equal. apply IH. intros y Hy. apply H. now right.
Qed.

(** The last 20 entries of a list. *)
Lemma drop_last20_step (l r : list Z) :
  drop (length (drop (length l - 20) l ++ r) - 20) (drop (length l - 20) l ++ r)
  = drop (length (l ++ r) - 20) (l ++ r).
Proof.
  destruct (Nat.le_gt_cases (length l) 20) as [H | H].
  - replace (length l - 20)%nat with 0%nat by lia. reflexivity.
  - rewrite !length_app, length_drop.
    replace (length l - (length l - 20) + length r - 20)%nat
      with (length r) by lia.
    replace (length l + length r - 20)%nat
      with ((length l - 20) + length r)%nat by lia.
    rewrite <- drop_drop. f_equal.
    rewrite drop_app_le by lia. reflexivity.
Qed.

Lemma add_last20 g u (now : Z) m :
  (length (AntiSpam.timestampsOf g u m) <= 20)%nat ->
  AntiSpam.timestampsOf g u (AntiSpam.addUserMessage g u now m)
  = drop (length (AntiSpam.timestampsOf g u m ++ [now]) - 20)
         (AntiSpam.timestampsOf g u m ++ [now]).
Proof.
  intros H. rewrite add_timestamps. cbv zeta.
  set (ts := (AntiSpam.timestampsOf g u m ++ [now])%list).
  assert (length ts <= 21)%nat as Hts
    by (subst ts; rewrite length_app; cbn [length]; lia).
  destruct (Nat.ltb_spec 20 (length ts)) as [Hlt | Hle].
  - replace (length ts - 20)%nat with 1%nat by lia. now destruct ts.
  - replace (length ts - 20)%nat with 0%nat by lia. reflexivity.
Qed.

Lemma addUserMessages_last20 g u (times : list Z) m :
  (length (AntiSpam.timestampsOf g u m) <= 20)%nat ->
  AntiSpam.timestampsOf g u (AntiSpam.addUserMessages g u times m)
  = drop (length (AntiSpam.timestampsOf g u m ++ times) - 20)
         (AntiSpam.timestampsOf g u m ++ times).
Proof.
  unfold AntiSpam.addUserMessages. revert m.
  induction times as [|t times IH]; intros m H; cbn [fold_left].
  - rewrite app_nil_r. replace (_ - 20)%nat with 0%nat by lia. reflexivity.
  - rewrite IH.
    + rewrite (add_last20 g u t m H).
      rewrite drop_last20_step, <- app_assoc. reflexivity.
    + rewrite (add_last20 g u t m H), length_drop, length_app. cbn [length]. lia.
Qed.

Lemma In_drop {A : Type} (x : A) (n : nat) (l : list A) :
  In x (drop n l) -> In x l.
Proof.
  revert l. induction n as [|n IH]; intros [|y l] H; cbn in H; auto.
  right. now apply IH.
Qed.

End RateWindowMore.

(** X14.  In every state the module reaches, [getUserMessageCount] returns
    at most 20, whatever the window: a message limit above 20 is never
    reached. *)
Theorem message_count_at_most_20 (ops : list AntiSpam.op) (g u : string)
    (w now : Z) :
  ((AntiSpam.getUserMessageCount g u w now (AntiSpam.run ops)).2 <= 20)%nat.
Proof.
  destruct (count_spec g u w now (AntiSpam.run ops)) as [_ ->].
  etransitivity; [apply filter_length_le |].
  pose proof (run_bounded ops) as Hb.
  unfold AntiSpam.timestampsOf.
  destruct (AntiSpam.run ops !! AntiSpam.key g u) as [ts|] eqn:E;
    cbn [default length]; [eapply Hb, E | lia].
Qed.

(** X15.  Counting twice at the same instant with the same window gives the
    same count, and the second call leaves the map as the first one left
    it. *)
Theorem message_count_idempotent (g u : string) (w now : Z)
    (userMessages : gmap string (list Z)) :
  let r := AntiSpam.getUserMessageCount g u w now userMessages in
  AntiSpam.getUserMessageCount g u w now r.1 = r.
Proof.
  cbv zeta. unfold AntiSpam.getUserMessageCount.
  destruct (userMessages !! AntiSpam.key g u) as [ts|] eqn:E; cbn [fst].
  - rewrite lookup_insert_eq, filter_idem, insert_insert_eq. reflexivity.
  - now rewrite E.
Qed.

(** X16.  A burst recorded for a pair that had no timestamps, every message
    of it inside the window at the time of counting, counts as the number
    of messages up to 20 and as 20 beyond: only the 20 most recent are
    held. *)
Theorem burst_counts_up_to_20 (g u : string) (times : list Z) (w now : Z)
    (userMessages : gmap string (list Z)) :
  AntiSpam.timestampsOf g u userMessages = [] ->
  (forall t, In t times -> (now - t <= w * 1000)%Z) ->
  let after := AntiSpam.addUserMessages g u times userMessages in
  AntiSpam.timestampsOf g u after = drop (length times - 20) times /\
  (AntiSpam.getUserMessageCount g u w now after).2
  = Nat.min (length times) 20.
Proof.
  intros Hempty Hwin after.
  assert (AntiSpam.timestampsOf g u after = drop (length times - 20) times)
    as Hafter.
  { subst after. rewrite addUserMessages_last20; rewrite Hempty; [reflexivity |].
    cbn [length]. lia. }
  split; [exact Hafter |].
  destruct (count_spec g u w now after) as [_ ->]. rewrite Hafter.
  rewrite filter_all.
  - rewrite length_drop. lia.
  - intros t Ht. apply Z.leb_le, Hwin. now apply In_drop in Ht.
Qed.

Lemma burst_counts_up_to_20_witness :
  (AntiSpam.getUserMessageCount "120363@g.us" "2547@s.whatsapp.net" 5 3000
     (AntiSpam.addUserMessages "120363@g.us" "2547@s.whatsapp.net"
        [500; 1000; 1500; 2000; 2500; 3000]%Z ∅)).2 = 6%nat.
Proof.
  refine (proj2 (burst_counts_up_to_20 "120363@g.us" "2547@s.whatsapp.net"
                   [500; 1000; 1500; 2000; 2500; 3000]%Z 5 3000 ∅ _ _)).
  - reflexivity.
  - intros t Ht. cbn [In] in Ht.
    repeat (destruct Ht as [<- | Ht]; [lia |]). destruct Ht.
Defined.

(** * The warn cache and the store *)

Section CacheCoherence.

Implicit Types (st : Warn.State) (g u : string) (rows : list Warn.WarnRow).

Lemma filter_filter_comm {A : Type} (p q : A -> bool) (l : list A) :
  List.filter p (List.filter q l) = List.filter q (List.filter p l).
Proof.
  induction l as [|x l IH]; cbn [List.filter]; [reflexivity |].
  destruct (p x) eqn:Ep, (q x) eqn:Eq; cbn [List.filter];
    rewrite ?Ep, ?Eq, IH; reflexivity.
Qed.

Lemma filter_filter_and {A : Type} (p q : A -> bool) (l : list A) :
  List.filter p (List.filter q l) = List.filter (fun x => q x && p x) l.
Proof.
  induction l as [|x l IH]; cbn [List.filter]; [reflexivity |].
  destruct (q x); cbn [List.filter andb]; [| exact IH].
  destruct (p x); now rewrite IH.
Qed.

Lemma filter_implied {A : Type} (p q : A -> bool) (l : list A) :
  (forall x, In x l -> p x = true -> q x = true) ->
  List.filter p (List.filter q l) = List.filter p l.
Proof.
  induction l as [|x l IH]; cbn [List.filter]; intros H; [reflexivity |].
  assert (List.filter p (List.filter q l) = List.filter p l) as IH'.
  { apply IH. intros y Hy. apply H. now right. }
  destruct (q x) eqn:Eq; cbn [List.filter].
  - now rewrite IH'.
  - destruct (p x) eqn:Ep; [| exact IH'].
    rewrite (H x) in Eq by (assumption || now left). discriminate.
Qed.

Lemma filter_excluded {A : Type} (p q : A -> bool) (l : list A) :
  (forall x, In x l -> p x = true -> q x = false) ->
  List.filter p (List.filter q l) = [].
Proof.
  induction l as [|x l IH]; cbn [List.filter]; intros H; [reflexivity |].
  assert (List.filter p (List.filter q l) = []) as IH'.
  { apply IH. intros y Hy. apply H. now right. }
  destruct (q x) eqn:Eq; cbn [List.filter]; [| exact IH'].
  destruct (p x) eqn:Ep; [| exact IH'].
  rewrite (H x) in Eq by (assumption || now left). discriminate.
Qed.

Lemma filter_toCached (warnId : Z) rows :
  List.filter (fun c => negb (Warn.id c =? warnId)%Z) (map Warn.toCached rows)
  = map Warn.toCached
        (List.filter (fun w => negb (Warn.w_id w =? warnId)%Z) rows).
Proof.
  induction rows as [|w rows IH]; cbn [map List.filter]; [reflexivity |].
  cbn [Warn.toCached Warn.id].
  destruct (Warn.w_id w =? warnId)%Z; cbn [negb map]; now rewrite IH.
Qed.

Lemma NoDup_map_inj_in {A B : Type} (f : A -> B) (l : list A) (x y : A) :
  List.NoDup (map f l) -> In x l -> In y l -> f x = f y -> x = y.
Proof.
  induction l as [|z l IH]; cbn [map In]; intros H Hx Hy E; [destruct Hx |].
  apply NoDup_cons_iff in H. destruct H as [Hz H].
  destruct Hx as [-> | Hx], Hy as [-> | Hy].
  - reflexivity.
  - exfalso. apply Hz. rewrite E. now apply in_map.
  - exfalso. apply Hz. rewrite <- E. now apply in_map.
  - now apply IH.
Qed.

Lemma ofPair_spec g u (w : Warn.WarnRow) :
  Warn.ofPair g u w = true <-> Warn.w_groupJid w = g /\ Warn.w_userJid w = u.
Proof. unfold Warn.ofPair. now rewrite andb_true_iff, !String.eqb_eq. Qed.

Lemma ofPair_rowKey g u (w : Warn.WarnRow) :
  AntiLink.noColon g -> AntiLink.noColon (Warn.w_groupJid w) ->
  Warn.ofPair g u w = String.eqb (Warn.rowKey w) (Warn.key g u).
Proof.
  intros Hg Hw. destruct (String.eqb_spec (Warn.rowKey w) (Warn.key g u)) as [E | E].
  - apply ofPair_spec. now apply key_inj in E.
  - apply not_true_is_false. intros H. apply ofPair_spec in H.
    destruct H as [<- <-]. now apply E.
Qed.

(** What [refreshWarnCache] builds, key by key. *)
Lemma refresh_fold rows (acc : gmap string (list Warn.CachedWarn)) (k : string) :
  default []
    (fold_left (fun cache warn =>
                  Warn.cachePush (Warn.key (Warn.w_groupJid warn) (Warn.w_userJid warn))
                                 (Warn.toCached warn) cache) rows acc !! k)
  = (default [] (acc !! k) ++
     map Warn.toCached
         (List.filter (fun w => String.eqb (Warn.rowKey w) k) rows))%list.
Proof.
  revert acc. induction rows as [|w rows IH]; intros acc;
    cbn [fold_left List.filter map].
  - now rewrite app_nil_r.
  - rewrite IH. unfold Warn.cachePush. fold (Warn.rowKey w).
    destruct (String.eqb_spec (Warn.rowKey w) k) as [-> | Hne].
    + rewrite lookup_insert_eq. cbn [from_option map]. unfold id.
      now rewrite <- app_assoc.
    + now rewrite lookup_insert_ne.
Qed.

Lemma refresh_coherent st :
  Forall (fun w => AntiLink.noColon (Warn.w_groupJid w)) (Warn.WarnsDB st) ->
  Warn.coherent (Warn.refreshWarnCache st).
Proof.
  intros Hrows g u Hg. unfold Warn.refreshWarnCache.
  cbn [Warn.warnCache Warn.WarnsDB]. unfold Sequelize.findAll.
  assert (List.filter (fun _ : Warn.WarnRow => true) (Warn.WarnsDB st)
          = Warn.WarnsDB st) as -> by (apply filter_all; reflexivity).
  rewrite refresh_fold, lookup_empty. cbn [from_option app]. f_equal.
  apply filter_ext_in. intros w Hw. symmetry. apply ofPair_rowKey; [assumption |].
  rewrite List.Forall_forall in Hrows. now apply Hrows.
Qed.

Lemma getWarnSettings_frame g (now : Z) st :
  Warn.WarnsDB (Warn.getWarnSettings g now st).1 = Warn.WarnsDB st /\
  Warn.nextId (Warn.getWarnSettings g now st).1 = Warn.nextId st /\
  Warn.warnCache (Warn.getWarnSettings g now st).1 = Warn.warnCache st.
Proof.
  unfold Warn.getWarnSettings. destruct (String.eqb g ""); [easy |].
  destruct (List.find _ _); easy.
Qed.

Lemma addWarn_state g u (warnedBy reason : string) (now : Z) st :
  let row :=
    {| Warn.w_id := Warn.nextId st; Warn.w_groupJid := g; Warn.w_userJid := u;
       Warn.w_warnedBy := warnedBy; Warn.w_reason := reason;
       Warn.w_createdAt := now |} in
  let st' := (Warn.addWarn g u warnedBy reason now st).1 in
  Warn.WarnsDB st' = (Warn.WarnsDB st ++ [row])%list /\
  Warn.nextId st' = (Warn.nextId st + 1)%Z /\
  Warn.warnCache st' = Warn.cachePush (Warn.key g u) (Warn.toCached row)
                                      (Warn.warnCache st).
Proof.
  cbv zeta. unfold Warn.addWarn.
  destruct (getWarnSettings_frame g now st) as (H1 & H2 & H3).
  destruct (Warn.getWarnSettings g now st) as [st1 o]. cbn [fst] in H1, H2, H3.
  rewrite H1, H2, H3. destruct o; cbn [fst Warn.WarnsDB Warn.nextId Warn.warnCache];
    easy.
Qed.

Lemma sweep_is_filter (settings : list Warn.WarnSettings) (now : Z) :
  exists p, forall rows, Warn.sweep settings now rows = List.filter p rows.
Proof.
  revert now. induction settings as [|s settings IH]; intros now.
  - exists (fun _ => true). intros rows. cbn [Warn.sweep].
    symmetry. apply filter_all. reflexivity.
  - destruct (IH (Warn.setDateBack now (Warn.s_auto_reset_days s))) as [p Hp].
    exists (fun w =>
              negb (String.eqb (Warn.w_groupJid w) (Warn.s_groupJid s)
                    && (Warn.w_createdAt w <?
                        Warn.setDateBack now (Warn.s_auto_reset_days s))%Z)
              && p w).
    intros rows. cbn [Warn.sweep]. cbv zeta.
    rewrite Hp. unfold Sequelize.destroy. apply filter_filter_and.
Qed.

End CacheCoherence.

Section CachePreserved.

Implicit Types (st : Warn.State) (g u : string).

Lemma pair_of_other_key g u g' u' (w : Warn.WarnRow) :
  Warn.key g' u' <> Warn.key g u ->
  Warn.ofPair g' u' w = true -> Warn.ofPair g u w = false.
Proof.
  intros Hk H. apply not_true_is_false. intros H'.
  apply ofPair_spec in H, H'. destruct H as [<- <-], H' as [<- <-]. now apply Hk.
Qed.

Lemma addWarn_wellFormed g u (warnedBy reason : string) (now : Z) st :
  AntiLink.noColon g -> Warn.wellFormed st ->
  Warn.wellFormed (Warn.addWarn g u warnedBy reason now st).1.
Proof.
  intros Hg (Hcol & Hnd & Hlt & Hco).
  destruct (addWarn_state g u warnedBy reason now st) as (Hdb & Hid & Hcache).
  cbv zeta in Hdb, Hid, Hcache.
  unfold Warn.wellFormed, Warn.coherent. rewrite Hdb, Hid, Hcache.
  split; [| split; [| split]].
  - apply Forall_app. split; [assumption |]. now repeat constructor.
  - rewrite map_app. cbn [map Warn.w_id]. apply NoDup_snoc; [assumption |].
    intros Hin. apply in_map_iff in Hin. destruct Hin as (w & E & Hw).
    rewrite List.Forall_forall in Hlt. apply Hlt in Hw. lia.
  - apply Forall_app. split.
    + eapply Forall_impl; [exact Hlt |]. cbn. intros w Hw. lia.
    + repeat constructor. cbn. lia.
  - intros g' u' Hg'. rewrite List.filter_app, map_app. unfold Warn.cachePush.
    destruct (String.eq_dec (Warn.key g' u') (Warn.key g u)) as [E | E].
    + pose proof E as E'. apply key_inj in E'; [| assumption | assumption].
      destruct E' as [-> ->]. rewrite lookup_insert_eq. cbn [from_option].
      rewrite (Hco g u Hg). unfold id. f_equal.
      cbn [List.filter]. unfold Warn.ofPair.
      cbn [Warn.w_groupJid Warn.w_userJid]. now rewrite !String.eqb_refl.
    + rewrite lookup_insert_ne by congruence. rewrite (Hco g' u' Hg').
      cbn [List.filter].
      assert (Warn.ofPair g' u'
                {| Warn.w_id := Warn.nextId st; Warn.w_groupJid := g;
                   Warn.w_userJid := u; Warn.w_warnedBy := warnedBy;
                   Warn.w_reason := reason; Warn.w_createdAt := now |} = false)
        as ->.
      { apply not_true_is_false. intros H. apply ofPair_spec in H. cbn in H.
        destruct H as [-> ->]. now apply E. }
      now rewrite app_nil_r.
Qed.

Lemma removeWarn_wellFormed (warnId : Z) st :
  Warn.wellFormed st -> Warn.wellFormed (Warn.removeWarn warnId st).1.
Proof.
  intros (Hcol & Hnd & Hlt & Hco). unfold Warn.removeWarn.
  destruct (List.find _ (Warn.WarnsDB st)) as [warn|] eqn:Efind; cbn [fst];
    [| now repeat split].
  pose proof (find_some _ _ Efind) as [Hin Hid]. apply Z.eqb_eq in Hid.
  assert (AntiLink.noColon (Warn.w_groupJid warn)) as Hwg.
  { rewrite List.Forall_forall in Hcol. now apply Hcol. }
  unfold Warn.wellFormed, Warn.coherent, Sequelize.destroy.
  cbn [Warn.WarnsDB Warn.nextId Warn.warnCache].
  split; [now apply Forall_filter_keep |].
  split; [now apply NoDup_map_filter |].
  split; [now apply Forall_filter_keep |].
  intros g u Hg.
  set (k0 := Warn.key (Warn.w_groupJid warn) (Warn.w_userJid warn)).
  rewrite filter_filter_comm.
  destruct (String.eq_dec (Warn.key g u) k0) as [E | E].
  - rewrite E.
    assert (default []
              (match Warn.warnCache st !! k0 with
               | Some cached =>
                   if (length (List.filter (fun w => negb (Warn.id w =? warnId)%Z)
                                           cached) =? 0)%nat
                   then delete k0 (Warn.warnCache st)
                   else <[k0 := List.filter (fun w => negb (Warn.id w =? warnId)%Z)
                                            cached]> (Warn.warnCache st)
               | None => Warn.warnCache st
               end !! k0)
            = List.filter (fun w => negb (Warn.id w =? warnId)%Z)
                          (default [] (Warn.warnCache st !! k0))) as ->.
    { destruct (Warn.warnCache st !! k0) as [cached|] eqn:Ec; cbn [from_option].
      - unfold id.
        destruct (List.filter _ cached) as [|c l] eqn:Ef; cbn [length Nat.eqb].
        + now rewrite lookup_delete_eq.
        + now rewrite lookup_insert_eq.
      - now rewrite Ec. }
    rewrite <- E, (Hco g u Hg). apply filter_toCached.
  - assert ((match Warn.warnCache st !! k0 with
             | Some cached =>
                 if (length (List.filter (fun w => negb (Warn.id w =? warnId)%Z)
                                         cached) =? 0)%nat
                 then delete k0 (Warn.warnCache st)
                 else <[k0 := List.filter (fun w => negb (Warn.id w =? warnId)%Z)
                                          cached]> (Warn.warnCache st)
             | None => Warn.warnCache st
             end !! Warn.key g u) = Warn.warnCache st !! Warn.key g u) as ->.
    { destruct (Warn.warnCache st !! k0) as [cached|]; [| reflexivity].
      destruct (_ =? 0)%nat.
      - now rewrite lookup_delete_ne by congruence.
      - now rewrite lookup_insert_ne by congruence. }
    rewrite (Hco g u Hg). f_equal. rewrite filter_filter_comm.
    symmetry. apply filter_implied. intros x Hx Hp.
    apply negb_true_iff, Z.eqb_neq. intros Hxid.
    assert (x = warn) as ->
      by (apply (NoDup_map_inj_in Warn.w_id (Warn.WarnsDB st)); congruence).
    apply ofPair_spec in Hp. destruct Hp as [<- <-]. now apply E.
Qed.

Lemma clearUserWarns_wellFormed g u st :
  AntiLink.noColon g -> Warn.wellFormed st ->
  Warn.wellFormed (Warn.clearUserWarns g u st).1.
Proof.
  intros Hg (Hcol & Hnd & Hlt & Hco).
  unfold Warn.wellFormed, Warn.coherent, Warn.clearUserWarns, Sequelize.destroy.
  cbn [fst Warn.WarnsDB Warn.nextId Warn.warnCache].
  split; [now apply Forall_filter_keep |].
  split; [now apply NoDup_map_filter |].
  split; [now apply Forall_filter_keep |].
  intros g' u' Hg'.
  destruct (String.eq_dec (Warn.key g' u') (Warn.key g u)) as [E | E].
  - pose proof E as E'. apply key_inj in E'; [| assumption | assumption].
    destruct E' as [-> ->]. rewrite lookup_delete_eq. cbn [from_option].
    rewrite filter_excluded; [reflexivity |].
    intros x _ Hx. now rewrite Hx.
  - rewrite lookup_delete_ne by congruence. rewrite (Hco g' u' Hg'). f_equal.
    symmetry. apply filter_implied. intros x _ Hx.
    now rewrite (pair_of_other_key g u g' u' x E Hx).
Qed.

Lemma clearAllWarns_wellFormed g st :
  AntiLink.noColon g -> Warn.wellFormed st ->
  Warn.wellFormed (Warn.clearAllWarns g st).1.
Proof.
  intros Hg (Hcol & Hnd & Hlt & Hco).
  unfold Warn.wellFormed, Warn.coherent, Warn.clearAllWarns, Sequelize.destroy.
  cbn [fst Warn.WarnsDB Warn.nextId Warn.warnCache].
  split; [now apply Forall_filter_keep |].
  split; [now apply NoDup_map_filter |].
  split; [now apply Forall_filter_keep |].
  intros g' u' Hg'. rewrite deletePrefixed_lookup.
  destruct (Js.startsWith (g ++ ":") (Warn.key g' u')) eqn:E.
  - apply prefix_of_key in E; [| assumption | assumption]. subst g'.
    cbn [from_option]. rewrite filter_excluded; [reflexivity |].
    intros x _ Hx. apply ofPair_spec in Hx. destruct Hx as [Hx _].
    apply String.eqb_eq in Hx. now rewrite Hx.
  - rewrite (Hco g' u' Hg'). f_equal. symmetry. apply filter_implied.
    intros x _ Hx. apply ofPair_spec in Hx. destruct Hx as [Hx _].
    apply negb_true_iff, String.eqb_neq. intros Hxg.
    unfold Warn.key in E. rewrite <- Hx, Hxg in E.
    now rewrite startsWith_key in E.
Qed.

Lemma refresh_wellFormed st :
  Forall (fun w => AntiLink.noColon (Warn.w_groupJid w)) (Warn.WarnsDB st) ->
  List.NoDup (map Warn.w_id (Warn.WarnsDB st)) ->
  Forall (fun w => (Warn.w_id w < Warn.nextId st)%Z) (Warn.WarnsDB st) ->
  Warn.wellFormed (Warn.refreshWarnCache st).
Proof.
  intros Hcol Hnd Hlt. split; [exact Hcol |]. split; [exact Hnd |].
  split; [exact Hlt |]. now apply refresh_coherent.
Qed.

Lemma autoReset_wellFormed (hasOp : bool) (now : Z) st :
  Warn.wellFormed st -> Warn.wellFormed (Warn.autoResetOldWarns hasOp now st).
Proof.
  intros (Hcol & Hnd & Hlt & Hco). unfold Warn.autoResetOldWarns.
  destruct (Sequelize.findAll _ _ _) as [|s settings].
  - now apply refresh_wellFormed.
  - destruct hasOp; [| now repeat split].
    destruct (sweep_is_filter (s :: settings) now) as [p Hp].
    apply refresh_wellFormed; cbn [Warn.WarnsDB Warn.nextId]; rewrite Hp.
    + now apply Forall_filter_keep.
    + now apply NoDup_map_filter.
    + now apply Forall_filter_keep.
Qed.

Lemma step_wellFormed (o : Warn.op) st :
  Warn.opColonFree o -> Warn.wellFormed st -> Warn.wellFormed (Warn.step o st).
Proof.
  destruct o as [g u warnedBy reason now | warnId | g u | g | hasOp now |
                 | g now]; cbn [Warn.opColonFree Warn.step]; intros Ho Hwf.
  - now apply addWarn_wellFormed.
  - now apply removeWarn_wellFormed.
  - now apply clearUserWarns_wellFormed.
  - now apply clearAllWarns_wellFormed.
  - now apply autoReset_wellFormed.
  - destruct Hwf as (Hcol & Hnd & Hlt & _). now apply refresh_wellFormed.
  - destruct Hwf as (Hcol & Hnd & Hlt & Hco).
    destruct (getWarnSettings_frame g now st) as (H1 & H2 & H3).
    unfold Warn.wellFormed, Warn.coherent. rewrite H1, H2, H3. now repeat split.
Qed.

Lemma run_wellFormed (ops : list Warn.op) :
  Forall Warn.opColonFree ops -> Warn.wellFormed (Warn.run ops).
Proof.
  unfold Warn.run.
  assert (Warn.wellFormed Warn.initial) as Hinit.
  { split; [constructor |]. split; [constructor |]. split; [constructor |].
    intros g u _. reflexivity. }
  revert Hinit. generalize Warn.initial.
  induction ops as [|o ops IH]; intros st Hst Hops; cbn [fold_left].
  - assumption.
  - apply Forall_cons in Hops. destruct Hops as [Ho Hops].
    apply IH; [| assumption]. now apply step_wellFormed.
Qed.

Lemma coherent_count g u st :
  AntiLink.noColon g -> Warn.coherent st ->
  Warn.getUserWarnCount g u st
  = Sequelize.count (Warn.ofPair g u) (Warn.WarnsDB st).
Proof.
  intros Hg Hco. unfold Warn.getUserWarnCount, Sequelize.count.
  specialize (Hco g u Hg).
  destruct (Warn.warnCache st !! Warn.key g u) as [l|]; [| reflexivity].
  cbn [from_option] in Hco. unfold id in Hco. now rewrite Hco, length_map.
Qed.

End CachePreserved.

Section WarnReads.

Implicit Types (st : Warn.State) (g u : string).

Lemma orderDesc_nil_inv {A : Type} (col : A -> Z) (l : list A) :
  l = [] -> Sequelize.orderDesc col l = [].
Proof. now intros ->. Qed.

Lemma coherent_getUserWarns g u st :
  AntiLink.noColon g -> Warn.coherent st ->
  Warn.getUserWarns g u st
  = map Warn.toCached (List.filter (Warn.ofPair g u) (Warn.WarnsDB st)).
Proof.
  intros Hg Hco. specialize (Hco g u Hg). unfold Warn.getUserWarns.
  destruct (Warn.warnCache st !! Warn.key g u) as [l|]; [exact Hco |].
  cbn [from_option] in Hco. symmetry in Hco. apply map_eq_nil in Hco.
  unfold Sequelize.findAll. now rewrite Hco.
Qed.

Lemma getUserWarns_length g u st :
  length (Warn.getUserWarns g u st) = Warn.getUserWarnCount g u st.
Proof.
  unfold Warn.getUserWarns, Warn.getUserWarnCount.
  destruct (Warn.warnCache st !! Warn.key g u); [reflexivity |].
  rewrite length_map. unfold Sequelize.findAll, Sequelize.count.
  apply Permutation_length, orderDesc_perm.
Qed.

Lemma find_group_unique (rows : list Warn.WarnSettings) (g : string) :
  List.find (fun s => String.eqb (Warn.s_groupJid s) g) rows = None ->
  ~ In g (map Warn.s_groupJid rows).
Proof.
  induction rows as [|s rows IH]; cbn [List.find map In]; [tauto |].
  destruct (String.eqb_spec (Warn.s_groupJid s) g) as [E | E]; [discriminate |].
  intros H [H' | H']; [contradiction | now apply IH].
Qed.

Lemma find_none_forall {A : Type} (f : A -> bool) (l : list A) :
  (forall x, In x l -> f x = false) -> List.find f l = None.
Proof.
  induction l as [|x l IH]; cbn [List.find]; intros H; [reflexivity |].
  rewrite (H x) by now left. apply IH. intros y Hy. apply H. now right.
Qed.

End WarnReads.

Lemma runFrom_wellFormed (ops : list Warn.op) (st : Warn.State) :
  Warn.wellFormed st -> Forall Warn.opColonFree ops ->
  Warn.wellFormed (Warn.runFrom st ops).
Proof.
  unfold Warn.runFrom. revert st.
  induction ops as [|o ops IH]; intros st Hst Hops; cbn [fold_left].
  - assumption.
  - apply Forall_cons in Hops. destruct Hops as [Ho Hops].
    apply IH; [| assumption]. now apply step_wellFormed.
Qed.

(** X17.  Start the module with [initWarnDB] on any store with distinct ids
    and colon-free group ids (the empty one included) and let it serve any
    calls with colon-free group ids: the cache agrees with the store.  The
    count read for a pair is the number of its rows in the store, the warns
    listed for it are its rows in table order, and a cache entry, when
    there is one, holds exactly those rows. *)
Theorem warn_cache_agrees_with_store (st0 : Warn.State) (ops : list Warn.op)
    (g u : string) :
  Warn.storeWellFormed st0 ->
  Forall Warn.opColonFree ops -> AntiLink.noColon g ->
  let st := Warn.runFrom (Warn.initWarnDB st0) ops in
  Warn.getUserWarnCount g u st
  = Sequelize.count (Warn.ofPair g u) (Warn.WarnsDB st) /\
  Warn.getUserWarns g u st
  = map Warn.toCached (List.filter (Warn.ofPair g u) (Warn.WarnsDB st)) /\
  (forall cached,
      Warn.warnCache st !! Warn.key g u = Some cached ->
      cached = map Warn.toCached
                   (List.filter (Warn.ofPair g u) (Warn.WarnsDB st))).
Proof.
  intros (Hcol & Hnd & Hlt) Hops Hg st.
  assert (Warn.wellFormed (Warn.initWarnDB st0)) as Hinit
    by now apply refresh_wellFormed.
  destruct (runFrom_wellFormed ops _ Hinit Hops) as (_ & _ & _ & Hco).
  fold st in Hco.
  split; [now apply coherent_count |].
  split; [now apply coherent_getUserWarns |].
  intros cached Hc. specialize (Hco g u Hg). now rewrite Hc in Hco.
Qed.

Lemma warn_cache_agrees_with_store_witness :
  let ops :=
    [Warn.OpAddWarn "120363@g.us" "2547@s.whatsapp.net" "admin" "spam" 1000;
     Warn.OpAddWarn "120363@g.us" "2547@s.whatsapp.net" "admin" "links" 2000;
     Warn.OpRemoveWarn 1;
     Warn.OpAutoReset true 5000] in
  let st := Warn.runFrom (Warn.initWarnDB Warn.initial) ops in
  Warn.getUserWarnCount "120363@g.us" "2547@s.whatsapp.net" st
  = Sequelize.count (Warn.ofPair "120363@g.us" "2547@s.whatsapp.net")
                    (Warn.WarnsDB st).
Proof.
  intros ops st.
  refine (proj1 (warn_cache_agrees_with_store Warn.initial ops
                   "120363@g.us" "2547@s.whatsapp.net" _ _ _)).
  - repeat constructor.
  - repeat constructor.
  - reflexivity.
Defined.

(** X18.  [refreshWarnCache] rebuilds the cache from the store alone: on a
    store whose group ids are colon-free, whatever the cache held before,
    the warns then listed for a pair are its rows in table order and the
    count is their number. *)
Theorem refresh_rebuilds_cache (st : Warn.State) (g u : string) :
  Forall (fun w => AntiLink.noColon (Warn.w_groupJid w)) (Warn.WarnsDB st) ->
  AntiLink.noColon g ->
  Warn.getUserWarns g u (Warn.refreshWarnCache st)
  = map Warn.toCached (List.filter (Warn.ofPair g u) (Warn.WarnsDB st)) /\
  Warn.getUserWarnCount g u (Warn.refreshWarnCache st)
  = Sequelize.count (Warn.ofPair g u) (Warn.WarnsDB st).
Proof.
  intros Hrows Hg. pose proof (refresh_coherent st Hrows) as Hco.
  split.
  - now rewrite (coherent_getUserWarns g u _ Hg Hco).
  - now rewrite (coherent_count g u _ Hg Hco).
Qed.

Lemma refresh_rebuilds_cache_witness :
  let row :=
    {| Warn.w_id := 7; Warn.w_groupJid := "120363@g.us";
       Warn.w_userJid := "2547@s.whatsapp.net"; Warn.w_warnedBy := "admin";
       Warn.w_reason := "spam"; Warn.w_createdAt := 1000 |} in
  let st :=
    {| Warn.WarnSettingsDB := []; Warn.WarnsDB := [row]; Warn.nextId := 8;
       Warn.warnCache := {[Warn.key "120363@g.us" "2547@s.whatsapp.net" := []]} |} in
  Warn.getUserWarnCount "120363@g.us" "2547@s.whatsapp.net"
    (Warn.refreshWarnCache st) = 1%nat.
Proof.
  intros row st.
  refine (proj2 (refresh_rebuilds_cache st "120363@g.us" "2547@s.whatsapp.net"
                   _ _)).
  - repeat constructor.
  - reflexivity.
Defined.

(** X19.  On both of its paths [getUserWarns] lists as many warns as
    [getUserWarnCount] counts. *)
Theorem warns_listed_equal_warns_counted (g u : string) (st : Warn.State) :
  length (Warn.getUserWarns g u st) = Warn.getUserWarnCount g u st.
Proof. apply getUserWarns_length. Qed.

(** X20.  On a well-formed state, removing the warn that [addWarn] has just
    created (its id is the one [addWarn] reports) succeeds and undoes it:
    the store holds the rows it held before, and the pair's list and count
    are what they were. *)
Theorem add_then_remove_warn (g u warnedBy reason : string) (now : Z)
    (st : Warn.State) :
  AntiLink.noColon g -> Warn.wellFormed st ->
  let st1 := (Warn.addWarn g u warnedBy reason now st).1 in
  let r := Warn.removeWarn (Warn.nextId st) st1 in
  r.2 = true /\
  Warn.WarnsDB r.1 = Warn.WarnsDB st /\
  Warn.getUserWarns g u r.1 = Warn.getUserWarns g u st /\
  Warn.getUserWarnCount g u r.1 = Warn.getUserWarnCount g u st.
Proof.
  intros Hg Hwf st1 r.
  pose proof (addWarn_wellFormed g u warnedBy reason now st Hg Hwf) as Hwf1.
  fold st1 in Hwf1.
  pose proof (removeWarn_wellFormed (Warn.nextId st) st1 Hwf1) as Hwf2.
  fold r in Hwf2.
  destruct (addWarn_state g u warnedBy reason now st) as (Hdb & _ & _).
  cbv zeta in Hdb. fold st1 in Hdb.
  destruct Hwf as (_ & _ & Hlt & Hco).
  assert (List.find (fun w => (Warn.w_id w =? Warn.nextId st)%Z) (Warn.WarnsDB st)
          = None) as Hnone.
  { apply find_none_forall. intros w Hw. rewrite List.Forall_forall in Hlt.
    apply Hlt in Hw. apply Z.eqb_neq. lia. }
  assert (r.2 = true /\ Warn.WarnsDB r.1 = Warn.WarnsDB st) as [H2 Hrows].
  { subst r. unfold Warn.removeWarn. rewrite Hdb, (find_app_None _ _ _ Hnone).
    cbn [List.find Warn.w_id]. rewrite Z.eqb_refl. cbn [fst snd Warn.WarnsDB].
    split; [reflexivity |]. unfold Sequelize.destroy.
    rewrite List.filter_app. cbn [List.filter Warn.w_id].
    rewrite Z.eqb_refl. cbn [negb]. rewrite app_nil_r.
    apply filter_all. intros w Hw. rewrite List.Forall_forall in Hlt.
    apply Hlt in Hw. apply negb_true_iff, Z.eqb_neq. lia. }
  destruct Hwf2 as (_ & _ & _ & Hco2).
  split; [exact H2 |]. split; [exact Hrows |]. split.
  - now rewrite (coherent_getUserWarns g u _ Hg Hco2),
      (coherent_getUserWarns g u _ Hg Hco), Hrows.
  - now rewrite (coherent_count g u _ Hg Hco2), (coherent_count g u _ Hg Hco),
      Hrows.
Qed.

Lemma add_then_remove_warn_witness :
  (Warn.removeWarn (Warn.nextId Warn.initial)
     (Warn.addWarn "120363@g.us" "2547@s.whatsapp.net" "admin" "spam" 1000
        Warn.initial).1).2 = true.
Proof.
  refine (proj1 (add_then_remove_warn "120363@g.us" "2547@s.whatsapp.net"
                   "admin" "spam" 1000 Warn.initial _ _)).
  - reflexivity.
  - exact (run_wellFormed [] (List.Forall_nil _)).
Defined.

(** X21.  [removeWarn] with an id the store does not hold answers [false]
    and changes nothing. *)
Theorem remove_unknown_warn (warnId : Z) (st : Warn.State) :
  ~ In warnId (map Warn.w_id (Warn.WarnsDB st)) ->
  Warn.removeWarn warnId st = (st, false).
Proof.
  intros H. unfold Warn.removeWarn.
  destruct (List.find _ (Warn.WarnsDB st)) as [w|] eqn:E; [| reflexivity].
  apply find_some in E. destruct E as [Hin Hid]. apply Z.eqb_eq in Hid.
  exfalso. apply H. rewrite <- Hid. now apply in_map.
Qed.

Lemma remove_unknown_warn_witness :
  Warn.removeWarn 42 Warn.initial = (Warn.initial, false).
Proof. apply remove_unknown_warn. intros []. Defined.

(** X23.  After [clearAllWarns] of warn.js no user of the group has a warn
    left, on either path: the count is 0 and the list is empty; the rows of
    the other groups stay in the store. *)
Theorem clear_all_warns_empties_group (g u : string) (st : Warn.State) :
  let st' := (Warn.clearAllWarns g st).1 in
  Warn.getUserWarnCount g u st' = 0%nat /\
  Warn.getUserWarns g u st' = [] /\
  (forall w, In w (Warn.WarnsDB st) -> Warn.w_groupJid w <> g ->
             In w (Warn.WarnsDB st')).
Proof.
  cbv zeta.
  assert (Warn.getUserWarnCount g u (Warn.clearAllWarns g st).1 = 0%nat) as H0.
  { unfold Warn.getUserWarnCount, Warn.clearAllWarns.
    cbn [fst Warn.warnCache Warn.WarnsDB]. unfold Warn.key.
    rewrite deletePrefixed_group. unfold Sequelize.count, Sequelize.destroy.
    rewrite filter_excluded; [reflexivity |].
    intros x _ Hx. apply ofPair_spec in Hx. destruct Hx as [Hx _].
    apply String.eqb_eq in Hx. now rewrite Hx. }
  split; [exact H0 |]. split.
  - rewrite <- getUserWarns_length in H0.
    now destruct (Warn.getUserWarns g u (Warn.clearAllWarns g st).1).
  - intros w Hw Hne. unfold Warn.clearAllWarns, Sequelize.destroy.
    cbn [fst Warn.WarnsDB]. apply filter_In. split; [assumption |].
    now apply negb_true_iff, String.eqb_neq.
Qed.

(** X24.  [getWarnSettings] creates the settings row of a group once: for a
    non-empty group id it returns a row of that group, a second call (at any
    time) returns the same row and changes nothing, and a table with one
    row per group keeps that property; for the empty group id it returns
    [null] and changes nothing. *)
Theorem warn_settings_created_once (g : string) (now : Z) (st : Warn.State) :
  g <> "" ->
  let r := Warn.getWarnSettings g now st in
  (exists settings,
      r.2 = Some settings /\ Warn.s_groupJid settings = g /\
      forall now', Warn.getWarnSettings g now' r.1 = (r.1, Some settings)) /\
  (List.NoDup (map Warn.s_groupJid (Warn.WarnSettingsDB st)) ->
   List.NoDup (map Warn.s_groupJid (Warn.WarnSettingsDB r.1))) /\
  (forall now', Warn.getWarnSettings "" now' st = (st, None)).
Proof.
  intros Hg r. subst r. unfold Warn.getWarnSettings.
  apply String.eqb_neq in Hg. rewrite Hg.
  destruct (List.find _ (Warn.WarnSettingsDB st)) as [s|] eqn:E; cbn [fst snd].
  - split; [| now split]. exists s. split; [reflexivity |]. split.
    + apply find_some in E. destruct E as [_ E]. now apply String.eqb_eq in E.
    + intros now'. now rewrite E.
  - split; [| split; [| reflexivity]].
    + eexists. split; [reflexivity |]. split; [reflexivity |].
      intros now'. cbn [Warn.WarnSettingsDB].
      rewrite (find_app_None _ _ _ E). cbn [List.find Warn.s_groupJid].
      now rewrite String.eqb_refl.
    + intros Hnd. cbn [Warn.WarnSettingsDB]. rewrite map_app.
      cbn [map Warn.s_groupJid]. apply NoDup_snoc; [assumption |].
      now apply find_group_unique.
Qed.

Lemma warn_settings_created_once_witness :
  (Warn.getWarnSettings "120363@g.us" 2000
     (Warn.getWarnSettings "120363@g.us" 1000 Warn.initial).1)
  = Warn.getWarnSettings "120363@g.us" 1000 Warn.initial.
Proof.
  destruct (warn_settings_created_once "120363@g.us" 1000 Warn.initial)
    as [(s & Hs & _ & H) _].
  - discriminate.
  - rewrite (H 2000%Z). cbv zeta in Hs.
    destruct (Warn.getWarnSettings "120363@g.us" 1000 Warn.initial) as [st1 o].
    cbn [fst snd] in *. now rewrite Hs.
Defined.

(** * The anti-link settings *)

Section AntiLinkSettings.

Import AntiLinkDB.

Lemma find_replaceFirst {A : Type} (p : A -> bool) (new s : A) (l : list A) :
  List.find p l = Some s -> p new = true ->
  List.find p (replaceFirst p new l) = Some new.
Proof.
  intros H Hnew. induction l as [|x l IH]; cbn [List.find replaceFirst] in *;
    [discriminate |].
  destruct (p x) eqn:E; cbn [List.find].
  - now rewrite Hnew.
  - rewrite E. now apply IH.
Qed.

Lemma In_replaceFirst_other {A : Type} (p : A -> bool) (new x : A) (l : list A) :
  p x = false -> p new = true ->
  (In x (replaceFirst p new l) <-> In x l).
Proof.
  intros Hx Hnew. induction l as [|y l IH]; cbn [replaceFirst]; [tauto |].
  destruct (p y) eqn:E; cbn [In].
  - split; intros [<- | H]; try tauto; congruence.
  - now rewrite IH.
Qed.

Lemma In_replaceFirst_new {A : Type} (p : A -> bool) (new s : A) (l : list A) :
  List.find p l = Some s -> In new (replaceFirst p new l).
Proof.
  induction l as [|y l IH]; cbn [List.find replaceFirst]; [discriminate |].
  destruct (p y); [now left | right; now apply IH].
Qed.

Lemma map_replaceFirst {A B : Type} (f : A -> B) (p : A -> bool) (new s : A)
    (l : list A) :
  List.find p l = Some s -> f new = f s ->
  map f (replaceFirst p new l) = map f l.
Proof.
  intros H E. induction l as [|y l IH]; cbn [List.find replaceFirst map] in *;
    [reflexivity |].
  destruct (p y); cbn [map].
  - injection H as ->. now rewrite E.
  - now rewrite IH.
Qed.

Lemma find_forGroup_None (g : string) (l : list AntiLinkRow) :
  List.find (forGroup g) l = None -> ~ In g (map groupJid l).
Proof.
  induction l as [|s l IH]; cbn [List.find map In]; [tauto |].
  unfold forGroup at 1.
  destruct (String.eqb_spec (groupJid s) g) as [E | E]; [discriminate |].
  intros H [H' | H']; [contradiction | now apply IH].
Qed.

End AntiLinkSettings.

(** X25.  [toggleAntiLink] is an upsert.  The instance it returns carries the
    given name, status, action and limit under the given group id; a
    following [getAntiLinkSettings] of that group returns this very row and
    changes nothing; the rows of the other groups are untouched; and on a
    table with one row per group, which it stays, the group is listed by
    [getAllAntiLinkGroups] exactly when it was toggled on. *)
Theorem toggle_anti_link_upserts (g : string) (name : option string)
    (st : Sequelize.status) (act : AntiLinkDB.action) (limit now stamp : Z)
    (table : list AntiLinkDB.AntiLinkRow) :
  g <> "" ->
  List.NoDup (map AntiLinkDB.groupJid table) ->
  let r := AntiLinkDB.toggleAntiLink g name st act limit now stamp table in
  (AntiLinkDB.groupJid r.2 = g /\ AntiLinkDB.groupName r.2 = name /\
   AntiLinkDB.status r.2 = st /\ AntiLinkDB.action_ r.2 = act /\
   AntiLinkDB.warn_limit r.2 = limit) /\
  (forall now', AntiLinkDB.getAntiLinkSettings g now' r.1 = (r.1, Some r.2)) /\
  (forall x, AntiLinkDB.groupJid x <> g -> (In x r.1 <-> In x table)) /\
  List.NoDup (map AntiLinkDB.groupJid r.1) /\
  (forall x, In x (AntiLinkDB.getAllAntiLinkGroups r.1) ->
             AntiLinkDB.groupJid x = g -> x = r.2) /\
  (In r.2 (AntiLinkDB.getAllAntiLinkGroups r.1) <-> st = Sequelize.On).
Proof.
  intros Hg Hnd r.
  assert (AntiLinkDB.groupJid r.2 = g /\ In r.2 r.1 /\
          List.find (AntiLinkDB.forGroup g) r.1 = Some r.2 /\
          AntiLinkDB.status r.2 = st /\
          List.NoDup (map AntiLinkDB.groupJid r.1) /\
          (forall x, AntiLinkDB.groupJid x <> g -> (In x r.1 <-> In x table)))
    as (Hrg & Hin & Hfind & Hst & Hnd' & Hother).
  { subst r. unfold AntiLinkDB.toggleAntiLink.
    destruct (List.find (AntiLinkDB.forGroup g) table) as [found|] eqn:E;
      cbn [fst snd].
    - pose proof (find_some _ _ E) as [_ Hf].
      unfold AntiLinkDB.forGroup in Hf. apply String.eqb_eq in Hf.
      set (new := {| AntiLinkDB.groupJid := AntiLinkDB.groupJid found |}).
      assert (AntiLinkDB.forGroup g new = true) as Hnew
        by (unfold AntiLinkDB.forGroup; cbn; now apply String.eqb_eq).
      split; [exact Hf |].
      split; [now apply (In_replaceFirst_new _ _ found) |].
      split; [now apply (find_replaceFirst _ _ found) |].
      split; [reflexivity |].
      split; [now rewrite (map_replaceFirst _ _ new found table E) |].
      intros x Hx. apply In_replaceFirst_other; [| assumption].
      unfold AntiLinkDB.forGroup. now apply String.eqb_neq.
    - split; [reflexivity |].
      split; [apply in_or_app; right; now left |].
      split.
      { rewrite (find_app_None _ _ _ E). cbn [List.find].
        unfold AntiLinkDB.forGroup. cbn. now rewrite String.eqb_refl. }
      split; [reflexivity |].
      split.
      { rewrite map_app. apply NoDup_snoc; [assumption |].
        now apply find_forGroup_None. }
      intros x Hx. rewrite in_app_iff. cbn [In]. split; [| tauto].
      intros [H | [<- | []]]; [assumption |]. now contradiction Hx. }
  split.
  { split; [exact Hrg |]. subst r. unfold AntiLinkDB.toggleAntiLink.
    destruct (List.find _ table); cbn [snd]; now repeat split. }
  split.
  { intros now'. unfold AntiLinkDB.getAntiLinkSettings.
    apply String.eqb_neq in Hg. now rewrite Hg, Hfind. }
  split; [exact Hother |]. split; [exact Hnd' |].
  assert (forall x, In x (AntiLinkDB.getAllAntiLinkGroups r.1) <->
                    In x r.1 /\ AntiLinkDB.status x = Sequelize.On) as Hall.
  { intros x. unfold AntiLinkDB.getAllAntiLinkGroups.
    destruct (findAll_ordered AntiLinkDB.updatedAt
                (fun r => Sequelize.status_eqb (AntiLinkDB.status r) Sequelize.On)
                r.1) as [Hp _].
    rewrite <- status_eqb_On. split; intros H.
    - apply (Permutation_in _ Hp) in H. now apply filter_In in H.
    - apply (Permutation_in _ (Permutation_sym Hp)). now apply filter_In. }
  split.
  - intros x Hx Hxg. apply Hall in Hx. destruct Hx as [Hx _].
    apply (NoDup_map_inj_in AntiLinkDB.groupJid r.1); congruence.
  - rewrite Hall, Hst. tauto.
Qed.

Lemma toggle_anti_link_upserts_witness :
  let r := AntiLinkDB.toggleAntiLink "120363@g.us" (Some "Friends")
             Sequelize.On AntiLinkDB.ActDelete 5 2000 2000
             (AntiLinkDB.getAntiLinkSettings "120363@g.us" 1000 []).1 in
  AntiLinkDB.getAntiLinkSettings "120363@g.us" 3000 r.1 = (r.1, Some r.2).
Proof.
  intros r.
  refine (proj1 (proj2 (toggle_anti_link_upserts "120363@g.us" (Some "Friends")
                          Sequelize.On AntiLinkDB.ActDelete 5 2000 2000
                          (AntiLinkDB.getAntiLinkSettings "120363@g.us" 1000 []).1
                          _ _)) 3000%Z).
  - discriminate.
  - repeat constructor. intros [].
Defined.

(** * The warn count of a pair *)

Section WarnCount.

Lemma no_rows_count_zero (g u : string)
    (calls : list (string * string * Z)) (st : Warn.State) :
  Warn.wellFormed st -> AntiLink.noColon g ->
  Sequelize.count (Warn.ofPair g u) (Warn.WarnsDB st) = 0%nat ->
  Warn.getUserWarnCount g u st = 0%nat.
Proof.
  intros (_ & _ & _ & Hco) Hg H0. now rewrite (coherent_count g u st Hg Hco).
Qed.

End WarnCount.

(** C3 as stated fails.  After one warn for the pair ("a", "b:c") the pair
    ("a:b", "c") has no warn in the store, yet its first [addWarn]
    succeeds with [warnCount = 2]: both pairs are cached under the key
    "a:b:c". *)
Lemma warn_count_shared_key :
  let st := (Warn.addWarn "a" "b:c" "admin" "spam" 1000 Warn.initial).1 in
  List.filter (Warn.ofPair "a:b" "c") (Warn.WarnsDB st) = [] /\
  Warn.getUserWarns "a:b" "c"
    {| Warn.WarnSettingsDB := Warn.WarnSettingsDB st;
       Warn.WarnsDB := Warn.WarnsDB st; Warn.nextId := Warn.nextId st;
       Warn.warnCache := ∅ |} = [] /\
  (Warn.addWarn "a:b" "c" "admin" "links" 2000 st).2 = Warn.Added 2 2 3.
Proof. cbv zeta. split; [| split]; vm_compute; reflexivity. Qed.

(** C3, as the code has it.  Let the module start with [initWarnDB] on a
    store with distinct ids and colon-free group ids and serve any calls
    with colon-free group ids.  From the state so reached, for a pair
    without warns in the store whose group id is non-empty (the calls that
    succeed) and colon-free, the Nth of successive calls of [addWarn] for
    the pair answers with [warnCount = N] and the limit configured for the
    group; the calls only add warn rows of that pair and, at most, the
    group's settings row; after [clearUserWarns] the count of the pair is
    0. *)
Theorem warn_count_sequence_colon_free (st0 : Warn.State) (ops : list Warn.op)
    (g u : string) (calls : list (string * string * Z)) :
  Warn.storeWellFormed st0 ->
  Forall Warn.opColonFree ops ->
  AntiLink.noColon g ->
  g <> "" ->
  let st := Warn.runFrom (Warn.initWarnDB st0) ops in
  Sequelize.count (Warn.ofPair g u) (Warn.WarnsDB st) = 0%nat ->
  let r := Warn.addWarns g u calls st in
  length r.2 = length calls /\
  (forall (n : nat) res,
      r.2 !! n = Some res ->
      exists warnId, res = Warn.Added (S n) warnId (Warn.warnLimitOf g st)) /\
  Warn.getUserWarnCount g u r.1 = length calls /\
  (exists rows, Warn.WarnsDB r.1 = (Warn.WarnsDB st ++ rows)%list /\
                Forall (fun row => Warn.ofPair g u row = true) rows) /\
  (exists created,
      Warn.WarnSettingsDB r.1 = (Warn.WarnSettingsDB st ++ created)%list) /\
  Warn.getUserWarnCount g u (Warn.clearUserWarns g u r.1).1 = 0%nat.
Proof.
  intros (Hcol & Hnd & Hlt) Hops Hg Hne st H0.
  assert (Warn.wellFormed st) as Hwf.
  { apply runFrom_wellFormed; [| assumption]. now apply refresh_wellFormed. }
  apply addWarns_counts_from_zero; [assumption |].
  now apply no_rows_count_zero.
Qed.

Lemma warn_count_sequence_colon_free_witness :
  let ops :=
    [Warn.OpAddWarn "120364@g.us" "2547:1@s.whatsapp.net" "admin" "spam" 500;
     Warn.OpAddWarn "120363@g.us" "2548@s.whatsapp.net" "admin" "spam" 700] in
  let st := Warn.runFrom (Warn.initWarnDB Warn.initial) ops in
  Sequelize.count (Warn.ofPair "120363@g.us" "2547:1@s.whatsapp.net")
                  (Warn.WarnsDB st) = 0%nat /\
  Warn.getUserWarnCount "120363@g.us" "2547:1@s.whatsapp.net"
    (Warn.addWarns "120363@g.us" "2547:1@s.whatsapp.net"
       [("admin", "spam", 1000%Z); ("admin", "links", 2000%Z);
        ("owner", "insults", 3000%Z)] st).1 = 3%nat.
Proof.
  intros ops st.
  assert (Sequelize.count (Warn.ofPair "120363@g.us" "2547:1@s.whatsapp.net")
                          (Warn.WarnsDB st) = 0%nat) as H0
    by (vm_compute; reflexivity).
  split; [exact H0 |].
  refine (proj1 (proj2 (proj2
    (warn_count_sequence_colon_free Warn.initial ops
       "120363@g.us" "2547:1@s.whatsapp.net"
       [("admin", "spam", 1000%Z); ("admin", "links", 2000%Z);
        ("owner", "insults", 3000%Z)] _ _ _ _ H0)))).
  - repeat constructor.
  - repeat constructor.
  - reflexivity.
  - discriminate.
Defined.
